(** * Shallow embedding of the network-scanner scan pipeline

    Sources embedded here (all under [backend/app]):
    - [scanner/orchestrator.py]: [ScanOrchestrator.execute_scan],
      [_run_parallel_host_scans] (with its nested [scan_single_host]) and
      [_save_hosts_to_db];
    - [scanner/nmap_runner.py]: [NmapRunner.discover_hosts] and the
      output paths and command lines of [discover_hosts] and
      [run_host_scan];
    - [scanner/parser.py]: [parse_nmap_xml] and [detect_enhanced_vm];
    - [scheduler/scheduler.py]: [trigger_schedule],
      [_execute_scheduled_scan], [_cleanup_old_data], [_add_job],
      [add_schedule], [remove_schedule], [update_schedule] and
      [load_schedules];
    - [scanner/stuck_scan_monitor.py]: [check_and_fix_stuck_scans],
      [_find_nmap_processes] and [kill_nmap_processes];
    - [main.py]: [get_setting], [set_setting], [get_settings] and
      [update_settings], with the [AppSettings] schema.

    Conventions.  Timestamps ([datetime]) are integers counting seconds
    from [datetime.min], so that a [datetime] below [datetime.min] is a
    negative number.  Python's [int(a / b * k)] with [0 <= a <= b] is
    modelled by the truncated exact quotient [(a * k) / b].  Database rows
    are records; a table is a list of rows in primary-key order. *)

From Stdlib Require Import List String Ascii ZArith Bool Lia.
Import ListNotations.
Open Scope string_scope.
Open Scope list_scope.

(* ================================================================== *)
(** ** Orchestrator: the writes of [scan.progress_percent] *)

Module Progress.
Open Scope Z_scope.

(** The loop of [_run_parallel_host_scans] that collects the futures in
    completion order.  [outcomes] lists, in that order, whether
    [future.result()] returned ([true]) or raised ([false]).  A returned
    future bumps [completed_hosts] and writes
    [20 + int((completed_hosts / total_hosts) * 70)]; a raising one only
    bumps the counter. *)
Fixpoint host_progress_writes (total_hosts completed_hosts : Z)
    (outcomes : list bool) : list Z :=
  match outcomes with
  | [] => []
  | ok :: rest =>
      let completed_hosts' := completed_hosts + 1 in
      (if ok then [20 + (completed_hosts' * 70) / total_hosts] else [])
        ++ host_progress_writes total_hosts completed_hosts' rest
  end.

(** [progress_base = int((idx / len(networks)) * 15)] for each network. *)
Definition discovery_writes (n : nat) : list Z :=
  map (fun idx => (Z.of_nat idx * 15) / Z.of_nat n) (seq 0 n).

(** Every value [execute_scan] assigns to [scan.progress_percent], in
    program order, on a run where no phase raises.  [discover] gives the
    live IPs returned by [discover_hosts] for a network; [outcomes] is as
    in [host_progress_writes]. *)
Definition execute_scan_progress (networks : list string)
    (discover : string -> list string) (outcomes : list bool) : list Z :=
  let all_live_ips := flat_map discover networks in
  [0] ++ discovery_writes (List.length networks) ++
  match all_live_ips with
  | [] => [100]
  | _ :: _ =>
      [18; 20]
        ++ host_progress_writes (Z.of_nat (List.length all_live_ips)) 0 outcomes
        ++ [50; 60; 70; 100]
  end.

(** A sequence of writes is non-decreasing. *)
Fixpoint nondecreasing (l : list Z) : bool :=
  match l with
  | x :: ((y :: _) as rest) => (x <=? y) && nondecreasing rest
  | _ => true
  end.



Close Scope Z_scope.
End Progress.

(* ================================================================== *)
(** ** Rows of the store and parsed host records *)

Module Model.

(** Python truthiness of a string: [""] (and [None], which the embedding
    folds into [""]) is false. *)
Definition truthy (s : string) : bool := negb (String.eqb s "").

(** [str.isspace] on one character (code points below 256): tab to
    carriage return, the four separators [\x1c]-[\x1f], space, [\x85]
    and the no-break space [\xa0]; [not s.strip()] holds when [s] is
    made of these only. *)
Definition is_space (c : ascii) : bool :=
  match nat_of_ascii c with
  | 9 | 10 | 11 | 12 | 13 | 28 | 29 | 30 | 31 | 32 | 133 | 160 => true
  | _ => false
  end.

Definition blank (s : string) : bool := forallb is_space (list_ascii_of_string s).

Inductive HostScanStatus := HPending | HScanning | HCompleted | HFailed.

Definition host_scan_status_eqb (a b : HostScanStatus) : bool :=
  match a, b with
  | HPending, HPending | HScanning, HScanning
  | HCompleted, HCompleted | HFailed, HFailed => true
  | _, _ => false
  end.

(** A [Host] row (the columns used below; [ports_discovered]
    defaults to 0, [scan_status] to [PENDING]). *)
Record HostRow := mkHostRow {
  h_id : nat;
  h_scan_id : nat;
  h_ip : string;
  h_hostname : string;
  h_mac : string;
  h_os : string;
  h_scan_status : HostScanStatus;
  h_scan_started_at : option Z;
  h_scan_completed_at : option Z;
  h_scan_progress_percent : Z;
  h_scan_error_message : option string;
  h_ports_discovered : nat
}.

(** A [Port] row. *)
Record PortRow := mkPortRow {
  p_host_id : nat;
  p_port : Z;
  p_protocol : string
}.

(** The tables [hosts] and [ports]. *)
Record Store := mkStore {
  st_hosts : list HostRow;
  st_ports : list PortRow
}.

(** One port dict of [parse_nmap_xml] ([port] already converted by
    [int(...)]). *)
Record PortData := mkPortData {
  pd_port : Z;
  pd_protocol : string
}.

(** One host dict of [parse_nmap_xml]: the keys the orchestrator reads. *)
Record HostData := mkHostData {
  hd_ip : string;
  hd_hostname : string;
  hd_mac : string;
  hd_os : string;
  hd_ports : list PortData
}.

Inductive ScanStatus := Pending | Running | Completed | Failed | Cancelled.

Definition is_terminal (st : ScanStatus) : bool :=
  match st with Completed | Failed | Cancelled => true | _ => false end.

(** A [Scan] row. *)
Record ScanRow := mkScanRow {
  sc_id : nat;
  sc_network_range : string;
  sc_status : ScanStatus;
  sc_created_at : option Z;
  sc_started_at : option Z;
  sc_updated_at : option Z;
  sc_completed_at : option Z;
  sc_progress_percent : Z;
  sc_progress_message : string;
  sc_error_message : option string;
  sc_schedule_id : option nat
}.

(** The next primary key of the [scans] table. *)
Definition next_scan_id (ss : list ScanRow) : nat :=
  S (fold_right Nat.max 0 (map sc_id ss)).

(** [db.query(Host).filter(Host.scan_id == sid, Host.ip == ip).first()] *)
Definition first_host (hs : list HostRow) (sid : nat) (ip : string)
    : option HostRow :=
  find (fun h => Nat.eqb (h_scan_id h) sid && String.eqb (h_ip h) ip) hs.

(** Overwrite the row with the same primary key. *)
Definition put_host (h : HostRow) (hs : list HostRow) : list HostRow :=
  map (fun h' => if Nat.eqb (h_id h') (h_id h) then h else h') hs.

(** Number of [Port] rows whose [host_id] is [hid]. *)
Definition port_count (ps : list PortRow) (hid : nat) : nat :=
  List.length (filter (fun p => Nat.eqb (p_host_id p) hid) ps).

(** The next primary key handed out by the database. *)
Definition next_host_id (hs : list HostRow) : nat :=
  S (fold_right Nat.max 0 (map h_id hs)).

End Model.

(* ================================================================== *)
(** ** Orchestrator phases 3, 4 and 5 *)

Module Reconcile.
Import Model.

(** [hosts_by_ip[ip] = host_data] on a dict: an existing key keeps its
    place, a new key goes last. *)
Fixpoint dict_set (ip : string) (v : HostData) (m : list (string * HostData))
    : list (string * HostData) :=
  match m with
  | [] => [(ip, v)]
  | (k, w) :: rest =>
      if String.eqb k ip then (k, v) :: rest else (k, w) :: dict_set ip v rest
  end.

Fixpoint dict_get (ip : string) (m : list (string * HostData))
    : option HostData :=
  match m with
  | [] => None
  | (k, w) :: rest => if String.eqb k ip then Some w else dict_get ip rest
  end.

(** One iteration of the deduplication loop of [execute_scan]. *)
Definition dedup_step (m : list (string * HostData)) (host_data : HostData)
    : list (string * HostData) :=
  let ip := hd_ip host_data in
  if truthy ip then
    match dict_get ip m with
    | None => dict_set ip host_data m
    | Some old =>
        if Nat.ltb (List.length (hd_ports old)) (List.length (hd_ports host_data))
        then dict_set ip host_data m
        else m
    end
  else m.

(** [hosts_by_ip] after the loop over [hosts_data]. *)
Definition hosts_by_ip (hosts_data : list HostData)
    : list (string * HostData) :=
  fold_left dedup_step hosts_data [].

(** [list(hosts_by_ip.values())] *)
Definition dedup_hosts (hosts_data : list HostData) : list HostData :=
  map snd (hosts_by_ip hosts_data).

(** The records of [l] carrying [ip]. *)
Definition records_for (ip : string) (l : list HostData) : list HostData :=
  filter (fun hd => String.eqb (hd_ip hd) ip) l.

Definition max_ports (ip : string) (l : list HostData) : nat :=
  fold_right Nat.max 0 (map (fun hd => List.length (hd_ports hd)) (records_for ip l)).

(** Following the spec's words: the record kept for [ip] is the first
    encountered one among those with the most ports. *)
Definition kept_record_spec (ip : string) (l : list HostData) : option HostData :=
  find (fun hd => Nat.eqb (List.length (hd_ports hd)) (max_ports ip l))
       (records_for ip l).

(** The value the deduplication loop holds for one key [ip], starting
    from [v]. *)
Fixpoint keep_fold (ip : string) (l : list HostData) (v : option HostData)
    : option HostData :=
  match l with
  | [] => v
  | hd :: rest =>
      keep_fold ip rest
        (if String.eqb (hd_ip hd) ip then
           match v with
           | None => Some hd
           | Some old =>
               if Nat.ltb (List.length (hd_ports old)) (List.length (hd_ports hd))
               then Some hd else v
           end
         else v)
  end.

(** Phase 4 predicate: at least one port, or an OS, or a MAC. *)
Definition has_data (host_data : HostData) : bool :=
  Nat.ltb 0 (List.length (hd_ports host_data))
  || truthy (hd_os host_data) || truthy (hd_mac host_data).

Definition filter_hosts (hosts_data : list HostData) : list HostData :=
  filter has_data hosts_data.

(** [filtered_ips = {h.get("ip") for h in filtered_hosts if h.get("ip")}] *)
Definition filtered_ips (filtered : list HostData) : list string :=
  filter truthy (map hd_ip filtered).

(** The stale-row deletion of phase 4, with its [if filtered_ips:] guard. *)
Definition remove_stale_hosts (sid : nat) (ips : list string) (st : Store)
    : Store :=
  match ips with
  | [] => st
  | _ :: _ =>
      let stale h := Nat.eqb (h_scan_id h) sid
                     && negb (existsb (String.eqb (h_ip h)) ips) in
      (* deleting a Host cascades to its Port rows *)
      let gone := map h_id (filter stale (st_hosts st)) in
      mkStore (filter (fun h => negb (stale h)) (st_hosts st))
              (filter (fun p => negb (existsb (Nat.eqb (p_host_id p)) gone))
                      (st_ports st))
  end.

(** [_save_hosts_to_db] for one host dict: find or create the row, write
    the final fields and [ports_discovered], then add one [Port] row per
    port (traceroute hops are not modelled). *)
Definition save_host (sid : nat) (st : Store) (host_data : HostData) : Store :=
  let ip := hd_ip host_data in
  let base :=
    match first_host (st_hosts st) sid ip with
    | Some h => h
    | None => mkHostRow (next_host_id (st_hosts st)) sid ip "" "" ""
                        HPending None None 0 None 0
    end in
  let host := mkHostRow (h_id base) (h_scan_id base) (h_ip base)
                (hd_hostname host_data) (hd_mac host_data) (hd_os host_data)
                (h_scan_status base) (h_scan_started_at base)
                (h_scan_completed_at base) (h_scan_progress_percent base)
                (h_scan_error_message base)
                (List.length (hd_ports host_data)) in
  let hosts' :=
    match first_host (st_hosts st) sid ip with
    | Some _ => put_host host (st_hosts st)
    | None => st_hosts st ++ [host]
    end in
  mkStore hosts'
          (st_ports st ++ map (fun pd => mkPortRow (h_id host) (pd_port pd)
                                                   (pd_protocol pd))
                              (hd_ports host_data)).

Definition save_hosts_to_db (sid : nat) (st : Store)
    (hosts_data : list HostData) : Store :=
  fold_left (save_host sid) hosts_data st.

(** Port rows point at existing Host rows. *)
Definition refs_ok (st : Store) : Prop :=
  forall p, In p (st_ports st) ->
  exists h, In h (st_hosts st) /\ h_id h = p_host_id p.

(** Invariant of the [_save_hosts_to_db] loop once the IPs in [done]
    have been saved: keys are unique, Port rows point at Host rows, the
    rows still to be saved own no Port row, and every saved row's
    [ports_discovered] counts its Port rows. *)
Definition save_inv (sid : nat) (done : list string) (st : Store) : Prop :=
  NoDup (map h_id (st_hosts st))
  /\ refs_ok st
  /\ (forall ip h, ~ In ip done -> first_host (st_hosts st) sid ip = Some h ->
                   port_count (st_ports st) (h_id h) = 0)
  /\ (forall ip, In ip done -> exists h, first_host (st_hosts st) sid ip = Some h
                   /\ h_ports_discovered h = port_count (st_ports st) (h_id h)).

(** Phases 3 to 5 of [execute_scan] on the store, from the concatenated
    parse of the discovery and per-host XML files. *)
Definition reconcile_and_save (sid : nat) (st : Store)
    (parsed : list HostData) : Store :=
  let hosts_data := dedup_hosts parsed in
  let filtered := filter_hosts hosts_data in
  let st' := remove_stale_hosts sid (filtered_ips filtered) st in
  save_hosts_to_db sid st' filtered.

End Reconcile.

(* ================================================================== *)
(** ** The per-host worker [scan_single_host] *)

Module Worker.
Import Model.

(** The worker's own database calls, in source order. *)
Inductive DbSite :=
  | QStart          (* query before marking SCANNING *)
  | CommitScanning  (* commit of the SCANNING mark *)
  | QReparse        (* re-query after a successful parse *)
  | CommitCompleted (* commit of the parsed fields and COMPLETED *)
  | QParseErr       (* re-query in the inner [except] *)
  | CommitParseErr  (* commit of COMPLETED in the inner [except] *)
  | QFailed         (* re-query in the outer [except] *)
  | CommitFailed.   (* commit of FAILED in the outer [except] *)

Inductive RunnerResult := RunOk (xml_path : string) | RunErr (msg : string).
Inductive ParseResult := ParseOk (hosts : list HostData) | ParseErr (msg : string).

(** [socket.gethostbyaddr(ip)]: a name, one of the three caught errors,
    or another exception (which reaches the inner [except]). *)
Inductive DnsResult := DnsName (n : string) | DnsCaught | DnsRaise (msg : string).

(** What the outside world answers to one worker: each database call may
    raise ([db_fault] with the exception text [db_error]), the runner,
    the parser and the DNS lookup have their results, and [now] is the
    clock. *)
Record WorkerEnv := mkWorkerEnv {
  db_fault : DbSite -> bool;
  db_error : string;
  runner : RunnerResult;
  parse : ParseResult;
  dns : DnsResult;
  now : Z
}.

(** The worker's [thread_db] session: the committed [Host] row of the
    worker's IP ([None] when [.first()] finds no row), and whether a
    failed commit left the session's transaction inactive.  A database
    fault at a commit site is a failure of its flush (the [UPDATE], where
    SQLite reports a lock); SQLAlchemy then rolls the transaction back
    and refuses every later query or commit until [rollback()]. *)
Record Session := mkSession {
  committed : option HostRow;
  needs_rollback : bool
}.

(** Exceptions and state. *)
Definition W (A : Type) : Type :=
  Session -> Session * (string + A).

Definition ret {A} (a : A) : W A := fun s => (s, inr a).
Definition raise {A} (e : string) : W A := fun s => (s, inl e).
Definition bind {A B} (m : W A) (k : A -> W B) : W B :=
  fun s => match m s with
           | (s', inl e) => (s', inl e)
           | (s', inr a) => k a s'
           end.
(** [try: body except Exception as e: handler(e)] *)
Definition try_except {A} (body : W A) (handler : string -> W A) : W A :=
  fun s => match body s with
           | (s', inl e) => handler e s'
           | r => r
           end.

Notation "x <- m ;; k" := (bind m (fun x => k))
  (at level 61, m at next level, right associativity).
Notation "m ;;; k" := (bind m (fun _ => k))
  (at level 61, right associativity).

Section Ops.
Variable env : WorkerEnv.

(** SQLAlchemy's [PendingRollbackError], raised by any use of a session
    whose flush failed. *)
Definition pending_rollback_error (orig : string) : string :=
  ("This Session's transaction has been rolled back due to a previous exception during flush. To begin a new transaction with this Session, first issue Session.rollback(). Original exception was: " ++ orig)%string.

(** [thread_db.query(Host).filter(...).first()] *)
Definition query (site : DbSite) : W (option HostRow) :=
  fun s => if needs_rollback s then (s, inl (pending_rollback_error (db_error env)))
           else if db_fault env site then (s, inl (db_error env))
           else (s, inr (committed s)).

(** Attribute writes on the loaded row followed by [thread_db.commit()]:
    the writes reach the store only when the commit succeeds; a failed
    flush leaves the session needing a rollback. *)
Definition update_commit (site : DbSite) (h : HostRow) (f : HostRow -> HostRow)
    : W unit :=
  fun s => if needs_rollback s then (s, inl (pending_rollback_error (db_error env)))
           else if db_fault env site then (mkSession (committed s) true, inl (db_error env))
           else (mkSession (Some (f h)) false, inr tt).

Definition mark_scanning (t : Z) (h : HostRow) : HostRow :=
  mkHostRow (h_id h) (h_scan_id h) (h_ip h) (h_hostname h) (h_mac h) (h_os h)
    HScanning (Some t) (h_scan_completed_at h) 50 (h_scan_error_message h)
    (h_ports_discovered h).

Definition mark_completed (t : Z) (h : HostRow) : HostRow :=
  mkHostRow (h_id h) (h_scan_id h) (h_ip h) (h_hostname h) (h_mac h) (h_os h)
    HCompleted (h_scan_started_at h) (Some t) 100 (h_scan_error_message h)
    (h_ports_discovered h).

Definition mark_failed (t : Z) (msg : string) (h : HostRow) : HostRow :=
  mkHostRow (h_id h) (h_scan_id h) (h_ip h) (h_hostname h) (h_mac h) (h_os h)
    HFailed (h_scan_started_at h) (Some t) 0 (Some msg)
    (h_ports_discovered h).

(** Fields written from the parsed record, then COMPLETED. *)
Definition apply_parsed (t : Z) (hostname : string) (hd : HostData)
    (h : HostRow) : HostRow :=
  mark_completed t
    (mkHostRow (h_id h) (h_scan_id h) (h_ip h) hostname (hd_mac hd) (hd_os hd)
       (h_scan_status h) (h_scan_started_at h) (h_scan_completed_at h)
       (h_scan_progress_percent h) (h_scan_error_message h)
       (List.length (hd_ports hd))).

Definition when_host (oh : option HostRow) (k : HostRow -> W unit) : W unit :=
  match oh with Some h => k h | None => ret tt end.

(** [hostname = host_data.get("hostname")] with the reverse-DNS fallback. *)
Definition resolve_hostname (hd : HostData) : W string :=
  if negb (blank (hd_hostname hd)) then ret (hd_hostname hd)
  else match dns env with
       | DnsName n => ret n
       | DnsCaught => ret ""
       | DnsRaise e => raise e
       end.

(** The inner [try] of [scan_single_host], after the runner returned. *)
Definition parse_and_update : W unit :=
  match parse env with
  | ParseErr e => raise e
  | ParseOk [] => ret tt
  | ParseOk (hd :: _) =>
      host <- query QReparse ;;
      when_host host (fun h =>
        hostname <- resolve_hostname hd ;;
        update_commit CommitCompleted h (apply_parsed (now env) hostname hd))
  end.

(** The inner [except]: still mark COMPLETED. *)
Definition parse_error_handler (_ : string) : W unit :=
  host <- query QParseErr ;;
  when_host host (fun h => update_commit CommitParseErr h (mark_completed (now env))).

(** The outer [except]: mark FAILED with [str(e)]. *)
Definition failure_handler (e : string) : W (option string) :=
  host <- query QFailed ;;
  when_host host (fun h => update_commit CommitFailed h (mark_failed (now env) e)) ;;;
  ret None.

(** The first statements of [scan_single_host]: load the row and mark
    it SCANNING. *)
Definition worker_prefix_body : W unit :=
  host <- query QStart ;;
  when_host host (fun h =>
    update_commit CommitScanning h (mark_scanning (now env))).

(** The body of [scan_single_host(ip)]: returns the XML path, or [None]
    from the outer [except]; an exception of the outer handler itself
    escapes the worker. *)
Definition scan_single_host_body : W (option string) :=
  try_except
    (worker_prefix_body ;;;
     match runner env with
     | RunErr e => raise e
     | RunOk xml_path =>
         try_except parse_and_update parse_error_handler ;;;
         ret (Some xml_path)
     end)
    failure_handler.

End Ops.

(** [thread_db = SessionLocal()] ... [finally: thread_db.close()]: the
    session opens with an active transaction, no [rollback()] is ever
    issued, and closing it drops what was not committed, so the store
    keeps the last committed row. *)
Definition in_session {A} (m : W A) (s : option HostRow)
    : option HostRow * (string + A) :=
  match m (mkSession s false) with (ss, r) => (committed ss, r) end.

Definition worker_prefix (env : WorkerEnv) : option HostRow -> option HostRow * (string + unit) :=
  in_session (worker_prefix_body env).

Definition scan_single_host (env : WorkerEnv)
    : option HostRow -> option HostRow * (string + option string) :=
  in_session (scan_single_host_body env).

(** The environment where no database call raises. *)
Definition no_fault (_ : DbSite) : bool := false.

End Worker.

(* ================================================================== *)
(** ** The worker pool of [_run_parallel_host_scans] *)

Module Pool.
Import Model Worker.

(** A [ThreadPoolExecutor(max_workers=w)] fed with one [scan_single_host]
    task per live IP.  [pool_queue] holds the submitted, not yet started
    tasks in submission order; [pool_running] the started ones, each with
    the row its worker loaded.  The rows change at the worker's first
    commit (the SCANNING mark) and at its end. *)
Record PoolState := mkPool {
  pool_rows : list HostRow;
  pool_queue : list string;
  pool_running : list (string * option HostRow)
}.

Definition write_back (rows : list HostRow) (o : option HostRow) : list HostRow :=
  match o with Some h => put_host h rows | None => rows end.

Section Steps.
Variable width : nat.
Variable sid : nat.
Variable env : string -> WorkerEnv.

Inductive pool_step : PoolState -> PoolState -> Prop :=
  | pool_start rows ip q run :
      List.length run < width ->
      pool_step (mkPool rows (ip :: q) run)
        (mkPool (write_back rows
                   (fst (worker_prefix (env ip) (first_host rows sid ip))))
                q ((ip, first_host rows sid ip) :: run))
  | pool_finish rows q run1 run2 ip h0 :
      pool_step (mkPool rows q (run1 ++ (ip, h0) :: run2))
        (mkPool (write_back rows (fst (scan_single_host (env ip) h0)))
                q (run1 ++ run2)).

Inductive pool_steps : PoolState -> PoolState -> Prop :=
  | pool_refl p : pool_steps p p
  | pool_next p q r : pool_step p q -> pool_steps q r -> pool_steps p r.

End Steps.

(** [executor.submit(scan_single_host, ip) for ip in live_ips] *)
Definition pool_init (rows : list HostRow) (live_ips : list string) : PoolState :=
  mkPool rows live_ips [].

(** Hosts of scan [sid] whose [scan_status] is SCANNING. *)
Definition scanning_count (sid : nat) (rows : list HostRow) : nat :=
  List.length (filter (fun h => Nat.eqb (h_scan_id h) sid
                          && host_scan_status_eqb (h_scan_status h) HScanning)
                      rows).

End Pool.

(* ================================================================== *)
(** ** [NmapRunner.discover_hosts]: reading the discovery XML *)

Module Discovery.

Local Unset Elimination Schemes.

(** An ElementTree element: tag, attributes, children. *)
Inductive Elem := Node (tag : string) (attrs : list (string * string))
                       (children : list Elem).

Definition tag (e : Elem) : string := match e with Node t _ _ => t end.
Definition children (e : Elem) : list Elem := match e with Node _ _ c => c end.

(** [e.get(name)] *)
Definition get (name : string) (e : Elem) : option string :=
  match e with
  | Node _ attrs _ =>
      option_map snd (find (fun kv => String.eqb (fst kv) name) attrs)
  end.

(** [e.find(t)] and [e.findall(t)]: direct children with tag [t]. *)
Definition find_child (t : string) (e : Elem) : option Elem :=
  find (fun c => String.eqb (tag c) t) (children e).

Definition findall (t : string) (e : Elem) : list Elem :=
  filter (fun c => String.eqb (tag c) t) (children e).

Definition opt_eqb (o : option string) (v : string) : bool :=
  match o with Some x => String.eqb x v | None => false end.

(** [e.find('address[@addrtype="ipv4"]')] *)
Definition find_ipv4 (e : Elem) : option Elem :=
  find (fun c => String.eqb (tag c) "address"
                 && opt_eqb (get "addrtype" c) "ipv4") (children e).

(** [status is not None and status.get("state") == "up"] *)
Definition status_up (host : Elem) : bool :=
  match find_child "status" host with
  | Some status => opt_eqb (get "state" status) "up"
  | None => false
  end.

(** The [has_open_port] loop (with its [break]). *)
Definition has_open_port (host : Elem) : bool :=
  match find_child "ports" host with
  | Some ports_elem =>
      existsb (fun port =>
                 match find_child "state" port with
                 | Some port_state => opt_eqb (get "state" port_state) "open"
                 | None => false
                 end)
              (findall "port" ports_elem)
  | None => false
  end.

(** What one [host] element appends to [ips]: [addr.get("addr")], which
    is [None] when the attribute is missing. *)
Definition host_ips (host : Elem) : list (option string) :=
  if status_up host && has_open_port host then
    match find_ipv4 host with
    | Some addr => [get "addr" addr]
    | None => []
    end
  else [].

(** The [ips] list returned by [discover_hosts] for the parsed root. *)
Definition discover_ips (root : Elem) : list (option string) :=
  flat_map host_ips (findall "host" root).

(** The spec's notion of a live host, as a proposition. *)
Definition live_host (host : Elem) : Prop :=
  (exists status, find_child "status" host = Some status
                  /\ get "state" status = Some "up")
  /\ (exists ports port st, find_child "ports" host = Some ports
        /\ In port (findall "port" ports)
        /\ find_child "state" port = Some st
        /\ get "state" st = Some "open").

End Discovery.

(* ================================================================== *)
(** ** The daily retention job [_cleanup_old_data] *)

Module Retention.
Import Model.
Local Open Scope Z_scope.

Record ArtifactRow := mkArtifact { a_scan_id : nat; a_file_path : string }.

(** The tables the job touches, the [Settings] key/value table and the
    set of files on disk. *)
Record RStore := mkRStore {
  r_scans : list ScanRow;
  r_artifacts : list ArtifactRow;
  r_settings : list (string * string);
  r_disk : list string
}.

Definition is_digit (c : ascii) : bool :=
  let n := nat_of_ascii c in Nat.leb 48%nat n && Nat.ltb n 58%nat.

Fixpoint drop_spaces (l : list ascii) : list ascii :=
  match l with
  | c :: r => if is_space c then drop_spaces r else l
  | [] => []
  end.

(** Digits, with single underscores between digits. *)
Fixpoint py_digits (acc : Z) (prev_digit : bool) (l : list ascii) : option Z :=
  match l with
  | [] => if prev_digit then Some acc else None
  | c :: r =>
      if is_digit c
      then py_digits (acc * 10 + Z.of_nat (nat_of_ascii c - 48)%nat) true r
      else if prev_digit && Ascii.eqb c "_" then py_digits acc false r
      else None
  end.

(** Python's [int(s)] on an ASCII string: surrounding whitespace, an
    optional sign, decimal digits; [None] stands for [ValueError]. *)
Definition py_int (s : string) : option Z :=
  let l := rev (drop_spaces (rev (drop_spaces (list_ascii_of_string s)))) in
  match l with
  | c :: r =>
      if Ascii.eqb c "-" then option_map Z.opp (py_digits 0 false r)
      else if Ascii.eqb c "+" then py_digits 0 false r
      else py_digits 0 false l
  | [] => None
  end.

Fixpoint setting_lookup (key : string) (kvs : list (string * string))
    : option string :=
  match kvs with
  | [] => None
  | (k, v) :: r => if String.eqb k key then Some v else setting_lookup key r
  end.

(** [int(setting.value) if setting else 90] *)
Definition retention_days (st : RStore) : option Z :=
  match setting_lookup "data_retention_days" (r_settings st) with
  | Some v => py_int v
  | None => Some 90
  end.

(** [datetime.min] and [datetime.max] in seconds, and the bound on
    [timedelta(days=...)]. *)
Definition datetime_max : Z := 315537897599.
Definition timedelta_max_days : Z := 999999999.

(** [datetime.utcnow() - timedelta(days=d)]; [None] is [OverflowError]. *)
Definition cutoff_of (now d : Z) : option Z :=
  let c := now - d * 86400 in
  if (Z.abs d <=? timedelta_max_days) && (0 <=? c) && (c <=? datetime_max)
  then Some c else None.

Inductive Effect := RemoveFile (path : string) | DeleteScanRow (id : nat).

(** [Scan.created_at < cutoff_date]; a NULL [created_at] never matches. *)
Definition older_than (cutoff : Z) (s : ScanRow) : bool :=
  match sc_created_at s with Some t => t <? cutoff | None => false end.

(** The file loop: [os.remove] each artifact file that exists. *)
Fixpoint remove_files (arts : list ArtifactRow) (disk : list string)
    : list Effect * list string :=
  match arts with
  | [] => ([], disk)
  | a :: rest =>
      let p := a_file_path a in
      if existsb (String.eqb p) disk
      then let (effs, disk') :=
             remove_files rest (filter (fun q => negb (String.eqb q p)) disk) in
           (RemoveFile p :: effs, disk')
      else remove_files rest disk
  end.

Definition in_ids (ids : list nat) (n : nat) : bool := existsb (Nat.eqb n) ids.

(** [_cleanup_old_data] at time [now]: the file removals and row
    deletions it performs, in order, and the resulting store.  A raised
    exception ([ValueError], [OverflowError]) is logged and rolled back:
    nothing happens. *)
Definition cleanup_old_data (now : Z) (st : RStore) : list Effect * RStore :=
  match retention_days st with
  | None => ([], st)
  | Some d =>
      match cutoff_of now d with
      | None => ([], st)
      | Some cutoff =>
          match filter (older_than cutoff) (r_scans st) with
          | [] => ([], st)
          | old_scans =>
              let scan_ids := map sc_id old_scans in
              let arts := filter (fun a => in_ids scan_ids (a_scan_id a))
                                 (r_artifacts st) in
              let (file_effs, disk') := remove_files arts (r_disk st) in
              (file_effs ++ map DeleteScanRow scan_ids,
               mkRStore
                 (filter (fun s => negb (in_ids scan_ids (sc_id s))) (r_scans st))
                 (filter (fun a => negb (in_ids scan_ids (a_scan_id a)))
                         (r_artifacts st))
                 (r_settings st) disk')
          end
      end
  end.

End Retention.

(* ================================================================== *)
(** ** Scheduler: [trigger_schedule] and [_execute_scheduled_scan] *)

Module Scheduler.
Import Model.

(** A [ScanSchedule] row. *)
Record ScheduleRow := mkSchedule {
  sch_id : nat;
  sch_name : string;
  sch_cron_expression : string;
  sch_network_range : string;
  sch_enabled : bool;
  sch_last_run_at : option Z;
  sch_next_run_at : option Z
}.

Record SStore := mkSStore {
  s_schedules : list ScheduleRow;
  s_scans : list ScanRow
}.

Section Exec.
(** [croniter(expr, now).get_next(datetime)]; [None] when croniter
    raises (the error is logged and [next_run_at] is left alone). *)
Variable cron_next : string -> Z -> option Z.

Definition find_schedule (id : nat) (st : SStore) : option ScheduleRow :=
  find (fun s => Nat.eqb (sch_id s) id) (s_schedules st).

Definition put_schedule (s : ScheduleRow) (ss : list ScheduleRow)
    : list ScheduleRow :=
  map (fun s' => if Nat.eqb (sch_id s') (sch_id s) then s else s') ss.

Definition set_last_run (t : Z) (s : ScheduleRow) : ScheduleRow :=
  mkSchedule (sch_id s) (sch_name s) (sch_cron_expression s)
    (sch_network_range s) (sch_enabled s) (Some t) (sch_next_run_at s).

(** [_update_next_run] *)
Definition update_next_run (now : Z) (s : ScheduleRow) : ScheduleRow :=
  match cron_next (sch_cron_expression s) now with
  | Some t => mkSchedule (sch_id s) (sch_name s) (sch_cron_expression s)
                (sch_network_range s) (sch_enabled s) (sch_last_run_at s) (Some t)
  | None => s
  end.

(** The [Scan] row [_execute_scheduled_scan] adds (its [created_at] and
    [updated_at] take their column defaults, [utcnow()]). *)
Definition scheduled_scan (id : nat) (now : Z) (s : ScheduleRow) : ScanRow :=
  mkScanRow id (sch_network_range s) Pending (Some now) None (Some now) None
    0 ("Scheduled scan: " ++ sch_name s)%string None (Some (sch_id s)).

(** [_execute_scheduled_scan(schedule_id)] at time [now]; the background
    thread that runs [execute_scan] on the new scan is not part of the
    store update. *)
Definition execute_scheduled_scan (schedule_id : nat) (now : Z) (st : SStore)
    : SStore :=
  match find_schedule schedule_id st with
  | None => st
  | Some schedule =>
      if negb (sch_enabled schedule) then st
      else
        let scan := scheduled_scan (next_scan_id (s_scans st)) now schedule in
        let schedule' := update_next_run now (set_last_run now schedule) in
        mkSStore (put_schedule schedule' (s_schedules st)) (s_scans st ++ [scan])
  end.

(** [trigger_schedule(schedule_id)] *)
Definition trigger_schedule (schedule_id : nat) (now : Z) (st : SStore)
    : SStore :=
  match find_schedule schedule_id st with
  | None => st
  | Some _ => execute_scheduled_scan schedule_id now st
  end.

End Exec.
End Scheduler.

(* ================================================================== *)
(** ** Watchdog: [StuckScanMonitor.check_and_fix_stuck_scans] *)

Module Watchdog.
Import Model.
Local Open Scope Z_scope.

Definition MAX_SCAN_TIME_HOURS : Z := 6.
Definition MAX_STALLED_TIME_MINUTES : Z := 30.

Section Sweep.
(** [f"{a / b:.1f}"] *)
Variable fmt_1f : Z -> Z -> string.
(** [diagnose_stuck_scan(db, scan)["issues"]]: it reads the host rows
    and the process table, which this embedding leaves abstract. *)
Variable issues : ScanRow -> list string.

(** The three stuck checks, in order; [Some reason] when stuck. *)
Definition stuck_reason (now : Z) (scan : ScanRow) : option string :=
  let c1 :=
    match sc_started_at scan with
    | Some t => if now - t >? MAX_SCAN_TIME_HOURS * 3600
                then Some ("Scan exceeded maximum runtime (" ++ fmt_1f (now - t) 3600
                           ++ " hours)")%string
                else None
    | None => None
    end in
  match c1 with
  | Some r => Some r
  | None =>
      let c2 :=
        match sc_updated_at scan with
        | Some t => if now - t >? MAX_STALLED_TIME_MINUTES * 60
                    then Some ("No progress for " ++ fmt_1f (now - t) 60 ++ " minutes")%string
                    else None
        | None => None
        end in
      match c2 with
      | Some r => Some r
      | None =>
          match sc_status scan, sc_created_at scan with
          | Pending, Some t =>
              if now - t >? 3600
              then Some "Scan stuck in pending state for over 1 hour"
              else None
          | _, _ => None
          end
      end
  end.

Fixpoint join (sep : string) (l : list string) : string :=
  match l with
  | [] => ""
  | [x] => x
  | x :: r => (x ++ sep ++ join sep r)%string
  end.

(** The failed row written for a stuck scan; the column's [onupdate]
    stamps [updated_at] at the flush. *)
Definition mark_stuck (now : Z) (reason : string) (scan : ScanRow) : ScanRow :=
  mkScanRow (sc_id scan) (sc_network_range scan) Failed (sc_created_at scan)
    (sc_started_at scan) (Some now) (Some now)
    (sc_progress_percent scan) (sc_progress_message scan)
    (Some ("Scan timeout: " ++ reason ++ ". Issues: " ++ join ", " (issues scan))%string)
    (sc_schedule_id scan).

(** [Scan.status.in_([RUNNING, PENDING])] *)
Definition selected (scan : ScanRow) : bool :=
  match sc_status scan with Running | Pending => true | _ => false end.

Definition fix_scan (now : Z) (scan : ScanRow) : ScanRow * bool :=
  if selected scan then
    match stuck_reason now scan with
    | Some reason => (mark_stuck now reason scan, true)
    | None => (scan, false)
    end
  else (scan, false).

(** The scans table after the sweep (the changes are committed when at
    least one scan was fixed; otherwise none were made) and
    [fixed_count]. *)
Definition check_and_fix_stuck_scans (now : Z) (scans : list ScanRow)
    : list ScanRow * nat :=
  let results := map (fix_scan now) scans in
  (map fst results, List.length (filter snd results)).

End Sweep.
End Watchdog.

(* ================================================================== *)
(** ** Concrete inputs used by the examples below *)

Module Scenarios.
Import Model Reconcile Worker.

(** The spec's scenario: discovery returned [192.168.1.100], the
    per-host parse has no port, no OS and no MAC. *)
Definition scenario_row : HostRow :=
  mkHostRow 1 7 "192.168.1.100" "" "" "" HCompleted (Some 0%Z) (Some 5%Z) 100%Z None 0.

Definition scenario_parsed : list HostData :=
  [mkHostData "192.168.1.100" "" "" "" []].

Definition c3_row : HostRow :=
  mkHostRow 1 7 "10.0.0.5" "" "" "" HPending None None 0%Z None 0.

(** The worker's environment of the happy-path scenario: no database
    error, the runner returns, the parse finds port 80/tcp. *)
Definition happy_env : WorkerEnv :=
  mkWorkerEnv no_fault "" (RunOk "scan_7_192_168_1_1.xml")
    (ParseOk [mkHostData "192.168.1.1" "router.local" "" "" [mkPortData 80 "tcp"]])
    DnsCaught 100.

Definition pending_row : HostRow :=
  mkHostRow 1 7 "192.168.1.1" "" "" "" HPending None None 0%Z None 0.

(** The same host, but committing the SCANNING mark raises (SQLite's
    "database is locked" under concurrent writers). *)
Definition locked_fault (site : DbSite) : bool :=
  match site with CommitScanning => true | _ => false end.

Definition locked_env : WorkerEnv :=
  mkWorkerEnv locked_fault "database is locked" (RunOk "scan_7_192_168_1_1.xml")
    (ParseOk [mkHostData "192.168.1.1" "router.local" "" "" [mkPortData 80 "tcp"]])
    DnsCaught 100.

(** The same host, but the commit of the parsed fields and COMPLETED
    raises. *)
Definition locked_completed_fault (site : DbSite) : bool :=
  match site with CommitCompleted => true | _ => false end.

Definition locked_completed_env : WorkerEnv :=
  mkWorkerEnv locked_completed_fault "database is locked"
    (RunOk "scan_7_192_168_1_1.xml")
    (ParseOk [mkHostData "192.168.1.1" "router.local" "" "" [mkPortData 80 "tcp"]])
    DnsCaught 100.

(** The runner times out. *)
Definition timeout_env : WorkerEnv :=
  mkWorkerEnv no_fault "" (RunErr "Command timed out after 300 seconds")
    (ParseOk []) DnsCaught 100.

(** The runner returns a malformed file. *)
Definition malformed_env : WorkerEnv :=
  mkWorkerEnv no_fault "" (RunOk "scan_7_192_168_1_1.xml")
    (ParseErr "no element found: line 1, column 0") DnsCaught 100.

(** A discovery XML with two hosts that are [up]: [10.0.0.5] has port
    22 open, [10.0.0.6] only a closed port 23. *)
Definition up_open_host : Discovery.Elem :=
  Discovery.Node "host" []
    [Discovery.Node "status" [("state", "up")] [];
     Discovery.Node "address" [("addr", "10.0.0.5"); ("addrtype", "ipv4")] [];
     Discovery.Node "ports" []
       [Discovery.Node "port" [("protocol", "tcp"); ("portid", "22")]
          [Discovery.Node "state" [("state", "open")] []]]].

Definition up_closed_host : Discovery.Elem :=
  Discovery.Node "host" []
    [Discovery.Node "status" [("state", "up")] [];
     Discovery.Node "address" [("addr", "10.0.0.6"); ("addrtype", "ipv4")] [];
     Discovery.Node "ports" []
       [Discovery.Node "port" [("protocol", "tcp"); ("portid", "23")]
          [Discovery.Node "state" [("state", "closed")] []]]].

Definition discovery_root : Discovery.Elem :=
  Discovery.Node "nmaprun" [] [up_open_host; up_closed_host].

(** Phase 3 records for [10.0.0.5]: the discovery summary (no port)
    first, then the per-host detailed scan (3 ports). *)
Definition discovery_record : HostData :=
  mkHostData "10.0.0.5" "" "" "" [].

Definition detailed_record : HostData :=
  mkHostData "10.0.0.5" "" "aa:bb:cc:dd:ee:ff" "Linux"
    [mkPortData 22 "tcp"; mkPortData 80 "tcp"; mkPortData 443 "tcp"].

Definition phase3_records : list HostData := [discovery_record; detailed_record].

(** Phase 2 of scan 7 with two live IPs, both still PENDING, and a
    detailed scan that returns a file in which the host is no longer up
    (the parse yields no host record). *)
Definition pending_a : HostRow :=
  mkHostRow 1 7 "10.0.0.1" "" "" "" HPending None None 0%Z None 0.

Definition pending_b : HostRow :=
  mkHostRow 2 7 "10.0.0.2" "" "" "" HPending None None 0%Z None 0.

Definition host_down_env (ip : string) : WorkerEnv :=
  mkWorkerEnv no_fault "" (RunOk ("scan_7_" ++ ip ++ ".xml")%string) (ParseOk [])
    DnsCaught 100.

(** Retention: [data_retention_days] stored as ["400"] (outside the
    range the settings API accepts), one scan created 370 days ago. *)
Definition retention_now : Z := 63870000000.

Definition old_scan : ScanRow :=
  mkScanRow 1 "192.168.1.0/24" Completed (Some (retention_now - 370 * 86400)%Z)
    None None None 100 "Scan completed" None None.

Definition retention_400_store : Retention.RStore :=
  Retention.mkRStore [old_scan]
    [Retention.mkArtifact 1 "/data/scans/scan_1.xml"]
    [("data_retention_days", "400")] ["/data/scans/scan_1.xml"].

(** Retention 30 days: scan 1 is 40 days old, scan 2 is 10 days old. *)
Definition recent_scan : ScanRow :=
  mkScanRow 2 "10.0.0.0/24" Completed (Some (retention_now - 10 * 86400)%Z)
    None None None 100 "Scan completed" None None.

Definition retention_30_store : Retention.RStore :=
  Retention.mkRStore
    [mkScanRow 1 "192.168.1.0/24" Completed (Some (retention_now - 40 * 86400)%Z)
       None None None 100 "Scan completed" None None; recent_scan]
    [Retention.mkArtifact 1 "/data/scans/scan_1.xml";
     Retention.mkArtifact 2 "/data/scans/scan_2.xml"]
    [("data_retention_days", "30")]
    ["/data/scans/scan_1.xml"; "/data/scans/scan_2.xml"].

(** A nightly schedule, disabled or enabled, and one earlier scan. *)
Definition nightly (enabled : bool) : Scheduler.ScheduleRow :=
  Scheduler.mkSchedule 3 "nightly" "0 2 * * *" "192.168.1.0/24,10.0.0.0/24"
    enabled None None.

Definition schedule_store (enabled : bool) : Scheduler.SStore :=
  Scheduler.mkSStore [nightly enabled] [recent_scan].

(** [croniter] for a daily expression. *)
Definition daily_cron (_ : string) (t : Z) : option Z := Some (t + 86400)%Z.

(** A scan that completed long ago, with [started_at] and [updated_at]
    ten hours back, next to a running scan in the same state. *)
Definition finished_scan : ScanRow :=
  mkScanRow 4 "192.168.1.0/24" Completed (Some (retention_now - 36000)%Z)
    (Some (retention_now - 36000)%Z) (Some (retention_now - 36000)%Z)
    (Some (retention_now - 35000)%Z) 100 "Scan completed" None None.

Definition running_scan : ScanRow :=
  mkScanRow 5 "10.0.0.0/24" Running (Some (retention_now - 36000)%Z)
    (Some (retention_now - 36000)%Z) (Some (retention_now - 36000)%Z)
    None 20 "Scanning hosts" None None.

Definition fmt_stub (_ _ : Z) : string := "10.0".
Definition no_issues (_ : ScanRow) : list string := [].

End Scenarios.

(* ================================================================== *)
(** ** Python string operations used below *)

Module PyStr.

(** [str.isspace()] on one character (code points below 256). *)
Definition py_isspace (c : ascii) : bool :=
  match nat_of_ascii c with
  | 9 | 10 | 11 | 12 | 13 | 28 | 29 | 30 | 31 | 32 | 133 | 160 => true
  | _ => false
  end.

(** [str.lower()] on ASCII text. *)
Definition lower_char (c : ascii) : ascii :=
  let n := nat_of_ascii c in
  if Nat.leb 65 n && Nat.leb n 90 then ascii_of_nat (n + 32) else c.

Fixpoint lower (s : string) : string :=
  match s with
  | EmptyString => EmptyString
  | String c r => String (lower_char c) (lower r)
  end.

(** [s.startswith(p)] *)
Fixpoint startswith (s p : string) : bool :=
  match p, s with
  | EmptyString, _ => true
  | String c p', String d s' => Ascii.eqb c d && startswith s' p'
  | String _ _, EmptyString => false
  end.

(** [needle in hay] *)
Fixpoint contains (needle hay : string) : bool :=
  startswith hay needle
  || match hay with EmptyString => false | String _ r => contains needle r end.

(** [str(n)] for an [int] [n >= 0]: the digits, most significant first,
    prepended to [acc]. *)
Fixpoint str_nat_aux (fuel n : nat) (acc : string) : string :=
  match fuel with
  | O => acc
  | S f =>
      let acc' := String (ascii_of_nat (48 + n mod 10)) acc in
      if Nat.ltb n 10 then acc' else str_nat_aux f (n / 10) acc'
  end.

Definition py_str_nat (n : nat) : string := str_nat_aux (S n) n "".

Definition py_str_Z (z : Z) : string :=
  if (z <? 0)%Z then String "-" (py_str_nat (Z.to_nat (- z)))
  else py_str_nat (Z.to_nat z).

(** [s.replace(a, b)] for one-character [a] and [b]. *)
Fixpoint replace_char (a b : ascii) (s : string) : string :=
  match s with
  | EmptyString => EmptyString
  | String c r => String (if Ascii.eqb c a then b else c) (replace_char a b r)
  end.

(** [s.endswith("/")] *)
Definition ends_with_slash (s : string) : bool :=
  match rev (list_ascii_of_string s) with
  | c :: _ => Ascii.eqb c "/"
  | [] => false
  end.

(** [os.path.join(d, name)] (posixpath) for a [name] not starting
    with ["/"]. *)
Definition path_join (d name : string) : string :=
  if String.eqb d "" then name
  else if ends_with_slash d then (d ++ name)%string
  else (d ++ "/" ++ name)%string.

(** [s.split()]: maximal runs of non-whitespace characters. *)
Fixpoint split_aux (cur : list ascii) (l : list ascii) : list string :=
  match l with
  | [] => match cur with [] => [] | _ => [string_of_list_ascii (rev cur)] end
  | c :: r =>
      if py_isspace c then
        match cur with
        | [] => split_aux [] r
        | _ => string_of_list_ascii (rev cur) :: split_aux [] r
        end
      else split_aux (c :: cur) r
  end.

Definition py_split (s : string) : list string := split_aux [] (list_ascii_of_string s).

End PyStr.

(* ================================================================== *)
(** ** [parser.py]: [parse_nmap_xml] and [detect_enhanced_vm] *)

Module Parser.
Import Model Discovery PyStr.

(** One entry of [host_data["ports"]].  [pr_script_output] is the
    [scripts] dictionary that [json.dumps] encodes ([None] when empty). *)
Record PortRec := mkPortRec {
  pr_port : option string;
  pr_protocol : option string;
  pr_service : string;
  pr_product : string;
  pr_version : string;
  pr_extrainfo : string;
  pr_cpe : option string;
  pr_script_output : option (list (string * string))
}.

(** One entry of [host_data["traceroute"]]; [hop_rtt] is the [rtt]
    attribute whose [float] is stored ([None]: absent, stored as 0.0). *)
Record HopRec := mkHopRec {
  hop_ttl : Z;
  hop_ip : string;
  hop_hostname : string;
  hop_rtt : option string
}.

(** The [host_data] dictionary; a [None] value is [None] in Python. *)
Record HostRec := mkHostRec {
  ph_ip : option string;
  ph_hostname : string;
  ph_mac : option string;
  ph_vendor : string;
  ph_ports : list PortRec;
  ph_os : string;
  ph_os_accuracy : option Z;
  ph_is_vm : bool;
  ph_vm_type : string;
  ph_uptime_seconds : option Z;
  ph_last_boot : option string;
  ph_distance : option Z;
  ph_cpe : option string;
  ph_traceroute : list HopRec
}.

(** [e.get(name, dflt)] *)
Definition get_default (name dflt : string) (e : Elem) : string :=
  match get name e with Some v => v | None => dflt end.

(** [int(e.get(name, 0))]; [None] is [ValueError]. *)
Definition int_attr (name : string) (e : Elem) : option Z :=
  match get name e with Some v => Retention.py_int v | None => Some 0%Z end.

(** [e.find('address[@addrtype="t"]')] *)
Definition find_addr (t : string) (e : Elem) : option Elem :=
  find (fun c => String.eqb (tag c) "address" && opt_eqb (get "addrtype" c) t)
       (children e).

(** All the results, or [None] as soon as one raises. *)
Fixpoint map_all {A B} (f : A -> option B) (l : list A) : option (list B) :=
  match l with
  | [] => Some []
  | x :: r =>
      match f x with
      | None => None
      | Some y => match map_all f r with Some ys => Some (y :: ys) | None => None end
      end
  end.

(** Drop the skipped ([continue]) items. *)
Fixpoint somes {A} (l : list (option A)) : list A :=
  match l with
  | [] => []
  | Some x :: r => x :: somes r
  | None :: r => somes r
  end.

(** [d[k] = v] on a [str -> str] dictionary. *)
Fixpoint sdict_set (k v : string) (d : list (string * string)) : list (string * string) :=
  match d with
  | [] => [(k, v)]
  | (k', v') :: r => if String.eqb k' k then (k, v) :: r else (k', v') :: sdict_set k v r
  end.

Definition vm_vendors : list string :=
  ["QEMU"; "VMware"; "VirtualBox"; "Xen"; "Microsoft"; "Parallels"].

(** The [vm_vendors] loop with its [break]. *)
Definition vendor_vm_type (vendor : string) : option string :=
  find (fun v => contains (lower v) (lower vendor)) vm_vendors.

(** [port.find("state").get("state") == "open"], with [None] for the
    [AttributeError] of a missing [state] child. *)
Definition port_state_open (port : Elem) : option bool :=
  match find_child "state" port with
  | Some st => Some (opt_eqb (get "state" st) "open")
  | None => None
  end.

(** [host_data["ip"]]: the [addr] of the IPv4 address, [""] without one. *)
Definition host_ip (host : Elem) : option string :=
  match find_ipv4 host with Some a => get "addr" a | None => Some "" end.

(** The [port] children of [ports] whose [state] is [open]
    (a missing [state] counts as not open here). *)
Definition port_open (port : Elem) : bool :=
  match find_child "state" port with
  | Some port_state => opt_eqb (get "state" port_state) "open"
  | None => false
  end.

Definition open_ports (host : Elem) : list Elem :=
  match find_child "ports" host with
  | Some ports => filter port_open (findall "port" ports)
  | None => []
  end.

Section Parse.
(** [e.text] (the embedding of elements keeps tags, attributes and
    children only). *)
Variable text : Elem -> option string.
(** Whether Python's [float()] accepts a string. *)
Variable float_ok : string -> bool.

Definition script_entry (d : list (string * string)) (script : Elem)
    : list (string * string) :=
  match get "id" script with
  | Some script_id =>
      let script_output := get_default "output" "" script in
      if truthy script_id && truthy script_output
      then sdict_set script_id script_output d else d
  | None => d
  end.

Definition service_attr (service : option Elem) (name : string) : string :=
  match service with Some s => get_default name "" s | None => "" end.

(** One [port] element: [None] raises, [Some None] is not open. *)
Definition parse_port (port : Elem) : option (option PortRec) :=
  match port_state_open port with
  | None => None
  | Some false => Some None
  | Some true =>
      let service := find_child "service" port in
      let scripts := fold_left script_entry (findall "script" port) [] in
      let service_cpe :=
        match service with
        | Some s => match find_child "cpe" s with Some c => text c | None => None end
        | None => None
        end in
      Some (Some (mkPortRec (get "portid" port) (get "protocol" port)
                    (service_attr service "name") (service_attr service "product")
                    (service_attr service "version") (service_attr service "extrainfo")
                    service_cpe
                    (match scripts with [] => None | _ => Some scripts end)))
  end.

Definition parse_hop (hop : Elem) : option HopRec :=
  match int_attr "ttl" hop with
  | None => None
  | Some ttl =>
      let rtt := get "rtt" hop in
      if match rtt with Some r => float_ok r | None => true end
      then Some (mkHopRec ttl (get_default "ipaddr" "" hop) (get_default "host" "" hop) rtt)
      else None
  end.

(** An optional element's [int] attribute. *)
Definition opt_int_attr (name : string) (e : option Elem) : option (option Z) :=
  match e with
  | Some x => option_map Some (int_attr name x)
  | None => Some None
  end.

(** One [host] element: [None] raises, [Some None] is [continue]. *)
Definition parse_host (host : Elem) : option (option HostRec) :=
  match find_child "status" host with
  | None => None
  | Some status =>
      if negb (opt_eqb (get "state" status) "up") then Some None else
      let ip := host_ip host in
      let mac_addr := find_addr "mac" host in
      let mac := match mac_addr with Some m => get "addr" m | None => Some "" end in
      let vendor := match mac_addr with Some m => get_default "vendor" "" m | None => "" end in
      let vm := match mac_addr with Some _ => vendor_vm_type vendor | None => None end in
      let hostname :=
        match find_child "hostnames" host with
        | Some hs => match find_child "hostname" hs with
                     | Some h => get_default "name" "" h
                     | None => ""
                     end
        | None => ""
        end in
      let os_elem := find_child "os" host in
      let osmatch := match os_elem with Some o => find_child "osmatch" o | None => None end in
      let os := match osmatch with Some m => get_default "name" "" m | None => "" end in
      let cpe :=
        match os_elem with
        | Some o => match find_child "osclass" o with
                    | Some oc => match find_child "cpe" oc with
                                 | Some c => text c
                                 | None => None
                                 end
                    | None => None
                    end
        | None => None
        end in
      let uptime_elem := find_child "uptime" host in
      let trace :=
        match find_child "trace" host with
        | Some t => map_all parse_hop (findall "hop" t)
        | None => Some []
        end in
      let ports :=
        match find_child "ports" host with
        | Some ps => option_map somes (map_all parse_port (findall "port" ps))
        | None => Some []
        end in
      match opt_int_attr "accuracy" osmatch, opt_int_attr "seconds" uptime_elem,
            opt_int_attr "value" (find_child "distance" host), trace, ports with
      | Some acc, Some up, Some dist, Some tr, Some pts =>
          Some (Some (mkHostRec ip hostname mac vendor pts os acc
                        (match vm with Some _ => true | None => false end)
                        (match vm with Some t => t | None => "" end)
                        up
                        (match uptime_elem with
                         | Some u => Some (get_default "lastboot" "" u)
                         | None => None
                         end)
                        dist cpe tr))
      | _, _, _, _, _ => None
      end
  end.

(** [parse_nmap_xml] on the parsed document root; [None] raises. *)
Definition parse_nmap_xml (root : Elem) : option (list HostRec) :=
  option_map somes (map_all parse_host (findall "host" root)).

End Parse.

Definition vm_indicators : list (string * string) :=
  [("docker", "Docker"); ("lxc", "LXC"); ("container", "Container");
   ("kvm", "KVM"); ("hyperv", "Hyper-V"); ("vmware", "VMware");
   ("virtualbox", "VirtualBox"); ("xen", "Xen")].

(** [host_data["is_vm"] = True; host_data["vm_type"] = t] *)
Definition set_vm (t : string) (h : HostRec) : HostRec :=
  mkHostRec (ph_ip h) (ph_hostname h) (ph_mac h) (ph_vendor h) (ph_ports h) (ph_os h)
    (ph_os_accuracy h) true t (ph_uptime_seconds h) (ph_last_boot h) (ph_distance h)
    (ph_cpe h) (ph_traceroute h).

(** [detect_enhanced_vm(host_data)]: the dictionary after the call;
    [None] is the [AttributeError] of [None.startswith]. *)
Definition detect_enhanced_vm (h : HostRec) : option HostRec :=
  if ph_is_vm h then Some h else
  let os_info := lower (ph_os h) in
  let h1 :=
    match find (fun iv => contains (fst iv) os_info) vm_indicators with
    | Some (_, t) => set_vm t h
    | None => h
    end in
  match ph_ip h1 with
  | None => None
  | Some ip =>
      let h2 :=
        if startswith ip "172.17." || startswith ip "172.18."
        then set_vm (if truthy (ph_vm_type h1) then ph_vm_type h1 else "Docker") h1
        else h1 in
      let h3 :=
        if startswith ip "10.0.3."
        then set_vm (if truthy (ph_vm_type h2) then ph_vm_type h2 else "LXC") h2
        else h2 in
      Some h3
  end.

End Parser.

(* ================================================================== *)
(** ** NmapRunner: output paths and command lines of [discover_hosts]
    and [run_host_scan] *)

Module Runner.
Import PyStr.

(** [os.path.join(self.output_dir, f"scan_{scan_id}_discovery.xml")] *)
Definition discovery_xml (output_dir : string) (scan_id : nat) : string :=
  path_join output_dir ("scan_" ++ py_str_nat scan_id ++ "_discovery.xml").

Definition discovery_cmd (output_dir network_range : string) (scan_id : nat)
    : list string :=
  ["nmap"; "-F"; "--max-retries"; "1"; "--host-timeout"; "30s"; "-T4"; "-oX";
   discovery_xml output_dir scan_id; network_range].

(** [os.path.join(self.output_dir,
        f"scan_{scan_id}_{ip.replace('.', '_')}.xml")] *)
Definition host_xml (output_dir : string) (scan_id : nat) (ip : string) : string :=
  path_join output_dir
    ("scan_" ++ py_str_nat scan_id ++ "_" ++ replace_char "." "_" ip ++ ".xml").

Definition host_cmd (output_dir ip : string) (scan_id : nat) : list string :=
  ["nmap"; "-sV"; "-O"; "-R"; "--osscan-guess"; "-T4"; "--version-intensity"; "2";
   "--max-rtt-timeout"; "200ms"; "--max-retries"; "1"; "--min-rate"; "100";
   "--max-os-tries"; "1"; "--host-timeout"; "240s"; "-oX";
   host_xml output_dir scan_id ip; ip].

(** The strings without an underscore (IPv4 and IPv6 addresses among
    them); used in statements only. *)
Definition no_underscore (s : string) : bool :=
  forallb (fun c => negb (Ascii.eqb c "_")) (list_ascii_of_string s).

End Runner.

(* ================================================================== *)
(** ** StuckScanMonitor: [_find_nmap_processes] and [kill_nmap_processes] *)

Module Procs.
Import PyStr.

(** [proc.info] from [psutil.process_iter(["pid", "name", "cmdline",
    "create_time"])]; an attribute psutil cannot read is [None]. *)
Record ProcInfo := mkProcInfo {
  pi_pid : nat;
  pi_name : option string;
  pi_cmdline : option (list string);
  pi_create_time : option Z
}.

(** One entry of the returned list. *)
Record NmapProc := mkNmapProc {
  np_pid : nat;
  np_cmdline : string;
  np_runtime_seconds : Z
}.

Section Find.
(** [round(psutil.time.time() - create_time, 1)]: it reads the clock. *)
Variable runtime_seconds : Z -> Z.
(** [psutil.Process(pid).terminate()] (and the wait / kill after it)
    succeeds, i.e. raises neither [NoSuchProcess] nor [AccessDenied]. *)
Variable terminate_ok : nat -> bool.

Definition scan_tag (scan_id : nat) : string := "scan_" ++ py_str_nat scan_id.

(** [proc.info["name"] == "nmap"] and
    [cmdline and any(f"scan_{scan_id}" in arg for arg in cmdline)] *)
Definition proc_matches (scan_id : nat) (p : ProcInfo) : bool :=
  match pi_name p with Some n => String.eqb n "nmap" | None => false end
  && match pi_cmdline p with
     | Some ((_ :: _) as cmdline) => existsb (contains (scan_tag scan_id)) cmdline
     | _ => false
     end.

(** [_find_nmap_processes(scan_id)] over the process table.  A matching
    process whose [create_time] is [None] makes the subtraction raise
    [TypeError]; the outer [except Exception] logs it and the processes
    found so far are returned. *)
Fixpoint find_nmap_processes (scan_id : nat) (procs : list ProcInfo)
    : list NmapProc :=
  match procs with
  | [] => []
  | p :: rest =>
      if proc_matches scan_id p then
        match pi_create_time p with
        | Some ct =>
            mkNmapProc (pi_pid p)
              (match pi_cmdline p with Some l => Watchdog.join " " l | None => "" end)
              (runtime_seconds ct)
            :: find_nmap_processes scan_id rest
        | None => []
        end
      else find_nmap_processes scan_id rest
  end.

(** [kill_nmap_processes(scan_id)]: the pids it signals, in order, and
    the returned count [killed]. *)
Definition kill_nmap_processes (scan_id : nat) (procs : list ProcInfo)
    : list nat * nat :=
  let pids := map np_pid (find_nmap_processes scan_id procs) in
  (pids, List.length (filter terminate_ok pids)).

End Find.
End Procs.

(* ================================================================== *)
(** ** Settings endpoints: [get_setting], [set_setting], [get_settings],
    [update_settings] *)

Module Settings.
Import Retention.
Local Open Scope Z_scope.

(** [get_setting(db, key, default)]; [Settings.key] is unique. *)
Definition get_setting (kvs : list (string * string)) (key default : string) : string :=
  match setting_lookup key kvs with Some v => v | None => default end.

(** [set_setting(db, key, value)]: update the row, or add one. *)
Fixpoint set_setting (key value : string) (kvs : list (string * string))
    : list (string * string) :=
  match kvs with
  | [] => [(key, value)]
  | (k, v) :: r =>
      if String.eqb k key then (k, value) :: r else (k, v) :: set_setting key value r
  end.

(** The field constraints of [AppSettings] (and [AppSettingsResponse]):
    [1 <= scan_parallelism <= 32], [1 <= data_retention_days <= 365]. *)
Definition settings_valid (sp dr : Z) : bool :=
  (1 <=? sp) && (sp <=? 32) && (1 <=? dr) && (dr <=? 365).

(** [GET /api/settings]; [None] when [int()] raises or the response
    model rejects a stored value. *)
Definition get_settings (kvs : list (string * string)) : option (Z * Z) :=
  match py_int (get_setting kvs "scan_parallelism" "8") with
  | None => None
  | Some sp =>
      match py_int (get_setting kvs "data_retention_days" "90") with
      | None => None
      | Some dr => if settings_valid sp dr then Some (sp, dr) else None
      end
  end.

(** [PUT /api/settings] on a request body with integer fields [sp] and
    [dr]: the new table, the new in-memory [config.settings.scan_parallelism]
    and the response; [None] is the 422 of a body [AppSettings] rejects. *)
Definition update_settings (sp dr : Z) (kvs : list (string * string))
    : option (list (string * string) * Z * (Z * Z)) :=
  if settings_valid sp dr then
    let kvs1 := set_setting "scan_parallelism" (PyStr.py_str_Z sp) kvs in
    let kvs2 := set_setting "data_retention_days" (PyStr.py_str_Z dr) kvs1 in
    Some (kvs2, sp, (sp, dr))
  else None.

End Settings.

(* ================================================================== *)
(** ** Scheduler jobs: [_add_job], [add_schedule], [remove_schedule],
    [update_schedule], [load_schedules] *)

Module Jobs.
Import PyStr Scheduler.

(** An APScheduler job as [_add_job] creates it. *)
Record Job := mkJob {
  job_id : string;
  job_name : string;
  job_args : list nat;
  job_fields : list string
}.

(** [f"schedule_{schedule.id}"] *)
Definition job_id_of (schedule_id : nat) : string := "schedule_" ++ py_str_nat schedule_id.

(** [self.scheduler.remove_job(job_id)]; the [JobLookupError] of a
    missing job is caught by every caller. *)
Definition remove_job (jid : string) (jobs : list Job) : list Job :=
  filter (fun j => negb (String.eqb (job_id j) jid)) jobs.

Section Add.
(** [croniter(expr)] does not raise. *)
Variable croniter_ok : string -> bool.
(** [CronTrigger(...)] accepts the fields [parts]. *)
Variable trigger_ok : list string -> bool.
(** [croniter(expr, now).get_next(datetime)], as in [Scheduler]. *)
Variable cron_next : string -> Z -> option Z.

Definition job_of (s : ScheduleRow) : Job :=
  mkJob (job_id_of (sch_id s)) ("Scan: " ++ sch_name s) [sch_id s]
    (py_split (sch_cron_expression s)).

(** [_add_job(schedule)]: the jobs afterwards, and [false] when it
    raised.  The old job is removed before the expression is checked. *)
Definition add_job (s : ScheduleRow) (jobs : list Job) : list Job * bool :=
  let jobs1 := remove_job (job_id_of (sch_id s)) jobs in
  if croniter_ok (sch_cron_expression s) then
    let parts := py_split (sch_cron_expression s) in
    if (Nat.eqb (List.length parts) 5 || Nat.eqb (List.length parts) 6)
       && trigger_ok parts
    then (jobs1 ++ [job_of s], true)
    else (jobs1, false)
  else (jobs1, false).

(** When [_add_job] succeeds: [croniter] accepts the expression, it
    splits into five or six fields and [CronTrigger] accepts them (used
    in statements). *)
Definition cron_accepted (s : ScheduleRow) : bool :=
  let parts := py_split (sch_cron_expression s) in
  croniter_ok (sch_cron_expression s)
  && ((Nat.eqb (List.length parts) 5 || Nat.eqb (List.length parts) 6) && trigger_ok parts).

(** [add_schedule(schedule_id)]; a raised [_add_job] is logged and the
    session rolled back, while the scheduler keeps what [_add_job] did. *)
Definition add_schedule (schedule_id : nat) (now : Z) (st : SStore) (jobs : list Job)
    : SStore * list Job :=
  match find_schedule schedule_id st with
  | None => (st, jobs)
  | Some s =>
      if negb (sch_enabled s) then (st, jobs)
      else
        let (jobs', ok) := add_job s jobs in
        if ok
        then (mkSStore (put_schedule (update_next_run cron_next now s) (s_schedules st))
                       (s_scans st), jobs')
        else (st, jobs')
  end.

(** [remove_schedule(schedule_id)] *)
Definition remove_schedule (schedule_id : nat) (jobs : list Job) : list Job :=
  remove_job (job_id_of schedule_id) jobs.

(** [update_schedule(schedule_id)] *)
Definition update_schedule (schedule_id : nat) (now : Z) (st : SStore) (jobs : list Job)
    : SStore * list Job :=
  add_schedule schedule_id now st (remove_schedule schedule_id jobs).

(** The loop of [load_schedules] over the enabled schedules, with the
    session's schedule rows: [_update_next_run] only runs after a
    successful [_add_job]. *)
Fixpoint load_each (now : Z) (ss : list ScheduleRow) (rows : list ScheduleRow)
    (jobs : list Job) : list ScheduleRow * list Job :=
  match ss with
  | [] => (rows, jobs)
  | s :: r =>
      let (jobs1, ok) := add_job s jobs in
      load_each now r
        (if ok then put_schedule (update_next_run cron_next now s) rows else rows) jobs1
  end.

(** [load_schedules()]: the loop's row updates are committed at the end. *)
Definition load_schedules (now : Z) (st : SStore) (jobs : list Job) : SStore * list Job :=
  let (rows, jobs') := load_each now (filter sch_enabled (s_schedules st))
                         (s_schedules st) jobs in
  (mkSStore rows (s_scans st), jobs').

End Add.
End Jobs.

(* ================================================================== *)
(** ** Concrete inputs for the parser, runner and scheduler examples *)

Module Scenarios2.
Import Model Discovery Parser.

Definition no_text (_ : Elem) : option string := None.
Definition all_floats (_ : string) : bool := true.

(** A report whose only host element has no [status] child. *)
Definition statusless_root : Elem :=
  Node "nmaprun" []
    [Node "host" [] [Node "address" [("addr", "10.0.0.7"); ("addrtype", "ipv4")] []]].

(** A parsed record on the default Docker bridge, no OS, not flagged. *)
Definition bridge_host : HostRec :=
  mkHostRec (Some "172.17.0.2") "" (Some "") "" [] "" None false "" None None None
    None [].

(** The same network, but the OS match names a KVM guest. *)
Definition kvm_bridge_host : HostRec :=
  mkHostRec (Some "172.17.0.3") "" (Some "") "" [] "Linux 5.X (KVM guest)" (Some 96%Z)
    false "" None None None None [].

(** A record whose [address] element had no [addr] attribute. *)
Definition no_ip_host : HostRec :=
  mkHostRec None "" (Some "") "" [] "" None false "" None None None None [].

(** The process table while scan 12 runs a host scan. *)
Definition nmap_12 : Procs.ProcInfo :=
  Procs.mkProcInfo 4242 (Some "nmap") (Some (Runner.host_cmd "/tmp" "10.0.0.5" 12))
    (Some 1000%Z).

(** Two nmap processes of scan 1; psutil could not read the first one's
    [create_time]. *)
Definition unreadable_nmap_1 : Procs.ProcInfo :=
  Procs.mkProcInfo 4100 (Some "nmap") (Some (Runner.discovery_cmd "/tmp" "10.0.0.0/24" 1))
    None.

Definition nmap_1 : Procs.ProcInfo :=
  Procs.mkProcInfo 4101 (Some "nmap") (Some (Runner.host_cmd "/tmp" "10.0.0.9" 1))
    (Some 1000%Z).

Definition runtime_stub (ct : Z) : Z := ct.
Definition terminate_all (_ : nat) : bool := true.

(** [croniter] and [CronTrigger] accepting every expression. *)
Definition croniter_all (_ : string) : bool := true.
Definition trigger_all (_ : list string) : bool := true.

End Scenarios2.

(* ================================================================== *)
(** * Properties *)

Module ProgressFacts.
Import Progress.
Local Open Scope Z_scope.

Lemma host_progress_writes_app (total c : Z) (l1 l2 : list bool) :
  host_progress_writes total c (l1 ++ l2) =
  host_progress_writes total c l1
    ++ host_progress_writes total (c + Z.of_nat (List.length l1)) l2.
Proof.
  revert c; induction l1 as [|ok l1 IH]; intro c; simpl.
  - now rewrite Z.add_0_r.
  - rewrite IH, app_assoc. do 2 f_equal. lia.
Qed.

Lemma host_progress_writes_last (total c : Z) (l : list bool) :
  host_progress_writes total c (l ++ [true]) =
  host_progress_writes total c l
    ++ [20 + ((c + Z.of_nat (List.length l) + 1) * 70) / total].
Proof. rewrite host_progress_writes_app. reflexivity. Qed.

(** C1 (code_bug).  Whenever at least one live host is found and the
    last worker future returns normally, the progress writes of
    [execute_scan] contain 90 (the last host completed) immediately
    followed by 50 (the start of phase 3): the value decreases. *)
Theorem execute_scan_progress_drops (networks : list string)
    (discover : string -> list string) (l : list bool) :
  flat_map discover networks <> [] ->
  S (List.length l) = List.length (flat_map discover networks) ->
  exists pre post,
    execute_scan_progress networks discover (l ++ [true]) = pre ++ [90; 50] ++ post.
Proof.
  intros Hne Hlen. unfold execute_scan_progress.
  destruct (flat_map discover networks) as [|x xs] eqn:E; [congruence|].
  rewrite host_progress_writes_last.
  replace ((0 + Z.of_nat (List.length l) + 1) * 70 / Z.of_nat (List.length (x :: xs)))
    with 70.
  - exists ([0] ++ discovery_writes (List.length networks) ++ [18; 20]
              ++ host_progress_writes (Z.of_nat (List.length (x :: xs))) 0 l),
           [60; 70; 100].
    rewrite <- !app_assoc. reflexivity.
  - rewrite <- Hlen, Nat2Z.inj_succ, Z.add_0_l, <- Z.add_1_r, Z.mul_comm.
    rewrite Z.div_mul; [reflexivity | lia].
Qed.

(** A scan of ["192.168.1.0/29"] whose discovery finds ["192.168.1.1"]
    and whose only worker returns. *)
Lemma execute_scan_progress_drops_witness :
  let networks := ["192.168.1.0/29"] in
  let discover := fun _ : string => ["192.168.1.1"] in
  (flat_map discover networks <> []
   /\ S (List.length (@nil bool)) = List.length (flat_map discover networks))
  /\ (exists pre post,
        execute_scan_progress networks discover ([] ++ [true]) = pre ++ [90; 50] ++ post)
  /\ execute_scan_progress networks discover [true] = [0; 0; 18; 20; 90; 50; 60; 70; 100]
  /\ nondecreasing (execute_scan_progress networks discover [true]) = false.
Proof.
  intros networks discover.
  assert (H1 : flat_map discover networks <> []) by (simpl; discriminate).
  assert (H2 : S (List.length (@nil bool)) = List.length (flat_map discover networks))
    by reflexivity.
  split; [split; assumption|].
  split; [exact (execute_scan_progress_drops networks discover [] H1 H2)|].
  split; reflexivity.
Defined.

End ProgressFacts.

Module ReconcileFacts.
Import Model Reconcile Scenarios.

(** C2 (code_bug).  When every reconciled host record is dropped by the
    phase-4 filter, the [if filtered_ips:] guard skips the deletion and
    phase 5 has nothing to save: the store, with all the Host rows the
    scan created in phase 2, is left unchanged. *)
Theorem all_filtered_keeps_rows (sid : nat) (st : Store)
    (parsed : list HostData) :
  filter_hosts (dedup_hosts parsed) = [] ->
  reconcile_and_save sid st parsed = st.
Proof.
  intro H. unfold reconcile_and_save. rewrite H. reflexivity.
Qed.


Lemma all_filtered_keeps_rows_witness :
  filter_hosts (dedup_hosts scenario_parsed) = []
  /\ reconcile_and_save 7 (mkStore [scenario_row] []) scenario_parsed
     = mkStore [scenario_row] []
  /\ List.length (filter (fun h => Nat.eqb (h_scan_id h) 7)
       (st_hosts (reconcile_and_save 7 (mkStore [scenario_row] []) scenario_parsed))) = 1.
Proof.
  assert (H : filter_hosts (dedup_hosts scenario_parsed) = []) by reflexivity.
  pose proof (all_filtered_keeps_rows 7 (mkStore [scenario_row] []) scenario_parsed H) as E.
  split; [exact H|]. split; [exact E|]. rewrite E. reflexivity.
Defined.

End ReconcileFacts.

Module SaveFacts.
Import Model Reconcile Scenarios.

Lemma find_map_same {A} (p : A -> bool) (f : A -> A) (l : list A) :
  (forall x, In x l -> p (f x) = p x) ->
  find p (map f l) = option_map f (find p l).
Proof.
  induction l as [|x l IH]; intro H; simpl; [reflexivity|].
  rewrite (H x (or_introl eq_refl)).
  destruct (p x); [reflexivity|].
  apply IH. intros y Hy. apply H. now right.
Qed.

Lemma find_app_one {A} (p : A -> bool) (l : list A) (y : A) :
  find p (l ++ [y]) =
  match find p l with Some x => Some x | None => if p y then Some y else None end.
Proof.
  induction l as [|x l IH]; simpl; [reflexivity|].
  destruct (p x); [reflexivity|exact IH].
Qed.

Lemma ids_inj (hs : list HostRow) (a b : HostRow) :
  NoDup (map h_id hs) -> In a hs -> In b hs -> h_id a = h_id b -> a = b.
Proof.
  induction hs as [|h hs IH]; simpl; [tauto|].
  intros Hnd Ha Hb Hab. inversion Hnd as [|? ? Hnin Hnd']; subst.
  destruct Ha as [<-|Ha], Hb as [<-|Hb]; auto.
  - exfalso. apply Hnin. rewrite Hab. now apply in_map.
  - exfalso. apply Hnin. rewrite <- Hab. now apply in_map.
Qed.

Lemma port_count_app (ps : list PortRow) (id hid : nat) (pds : list PortData) :
  port_count (ps ++ map (fun pd => mkPortRow id (pd_port pd) (pd_protocol pd)) pds) hid
  = port_count ps hid + (if Nat.eqb hid id then List.length pds else 0).
Proof.
  unfold port_count. rewrite filter_app, length_app. f_equal.
  induction pds as [|pd pds IH]; simpl.
  - now destruct (Nat.eqb hid id).
  - rewrite (Nat.eqb_sym id hid).
    destruct (Nat.eqb hid id); simpl; rewrite IH; reflexivity.
Qed.

Lemma port_count_none (ps : list PortRow) (hid : nat) :
  (forall p, In p ps -> p_host_id p <> hid) -> port_count ps hid = 0.
Proof.
  intro H. unfold port_count.
  induction ps as [|p ps IH]; simpl; [reflexivity|].
  destruct (Nat.eqb_spec (p_host_id p) hid) as [E|_].
  - exfalso. exact (H p (or_introl eq_refl) E).
  - apply IH. intros q Hq. apply H. now right.
Qed.

Lemma next_host_id_fresh (hs : list HostRow) (h : HostRow) :
  In h hs -> h_id h < next_host_id hs.
Proof.
  unfold next_host_id. induction hs as [|h' hs IH]; simpl; [tauto|].
  intros [<-|Hin]; [lia|]. specialize (IH Hin). lia.
Qed.

Lemma first_host_spec (hs : list HostRow) (sid : nat) (ip : string) (h : HostRow) :
  first_host hs sid ip = Some h -> In h hs /\ h_scan_id h = sid /\ h_ip h = ip.
Proof.
  unfold first_host. intro E. apply find_some in E as [Hin Hp].
  apply andb_prop in Hp as [H1 H2].
  apply Nat.eqb_eq in H1. apply String.eqb_eq in H2. auto.
Qed.

Lemma save_host_inv (sid : nat) (done : list string) (st : Store) (hd : HostData) :
  save_inv sid done st -> ~ In (hd_ip hd) done ->
  save_inv sid (hd_ip hd :: done) (save_host sid st hd).
Proof.
  intros (Hnd & Hrefs & Hfresh & Hdone) Hnin.
  unfold save_host.
  destruct (first_host (st_hosts st) sid (hd_ip hd)) as [h0|] eqn:E0.
  - (* the row exists: it is overwritten in place *)
    destruct (first_host_spec _ _ _ _ E0) as (Hin0 & Hs0 & Hi0).
    set (host := mkHostRow (h_id h0) (h_scan_id h0) (h_ip h0) (hd_hostname hd)
                   (hd_mac hd) (hd_os hd) (h_scan_status h0) (h_scan_started_at h0)
                   (h_scan_completed_at h0) (h_scan_progress_percent h0)
                   (h_scan_error_message h0) (List.length (hd_ports hd))).
    set (f := fun h' => if Nat.eqb (h_id h') (h_id host) then host else h').
    assert (Hf0 : forall h, In h (st_hosts st) -> h_id h = h_id h0 -> h = h0)
      by (intros h Hh E; exact (ids_inj _ _ _ Hnd Hh Hin0 E)).
    assert (Hids : map h_id (put_host host (st_hosts st)) = map h_id (st_hosts st)).
    { unfold put_host. rewrite map_map. apply map_ext. intro h.
      destruct (Nat.eqb_spec (h_id h) (h_id host)) as [E|_]; [exact (eq_sym E)|reflexivity]. }
    assert (Hfind : forall ip, first_host (put_host host (st_hosts st)) sid ip
                               = option_map f (first_host (st_hosts st) sid ip)).
    { intro ip. unfold first_host, put_host. apply find_map_same.
      intros h Hh. unfold f. destruct (Nat.eqb_spec (h_id h) (h_id host)) as [E|_];
        [|reflexivity].
      rewrite (Hf0 h Hh E). reflexivity. }
    assert (Hother : forall ip h, first_host (st_hosts st) sid ip = Some h ->
                       ip <> hd_ip hd -> f h = h /\ h_id h <> h_id h0).
    { intros ip h Eh Hne. destruct (first_host_spec _ _ _ _ Eh) as (Hh & _ & Hih).
      assert (Hneq : h_id h <> h_id h0).
      { intro E. apply Hne. rewrite <- Hih, <- Hi0. now rewrite (Hf0 h Hh E). }
      split; [|exact Hneq]. unfold f. simpl.
      destruct (Nat.eqb_spec (h_id h) (h_id h0)); [contradiction|reflexivity]. }
    split; [|split; [|split]]; simpl.
    + rewrite Hids. exact Hnd.
    + intros p Hp. apply in_app_or in Hp as [Hp|Hp].
      * destruct (Hrefs p Hp) as (h & Hh & Eh).
        exists (f h). split; [|unfold f;
          destruct (Nat.eqb_spec (h_id h) (h_id host)) as [Q|_];
          [rewrite <- Eh; symmetry; exact Q|exact Eh]].
        unfold put_host. now apply in_map.
      * apply in_map_iff in Hp as (pd & <- & _). exists host. split; [|reflexivity].
        unfold put_host. apply in_map_iff. exists h0. split; [|exact Hin0].
        unfold f. simpl. now rewrite Nat.eqb_refl.
    + intros ip h Hn Eh. rewrite Hfind in Eh.
      destruct (first_host (st_hosts st) sid ip) as [h1|] eqn:E1; [|discriminate].
      simpl in Eh. injection Eh as <-.
      assert (Hne : ip <> hd_ip hd) by (intro; apply Hn; now left).
      destruct (Hother ip h1 E1 Hne) as [-> Hid].
      rewrite port_count_app. simpl.
      destruct (Nat.eqb_spec (h_id h1) (h_id h0)); [contradiction|].
      rewrite Nat.add_0_r. apply (Hfresh ip); [intro; apply Hn; now right|exact E1].
    + intros ip [<-|Hip].
      * rewrite Hfind, E0. exists (f h0). unfold f; simpl. rewrite Nat.eqb_refl.
        split; [reflexivity|]. simpl. rewrite port_count_app. simpl.
        rewrite Nat.eqb_refl. rewrite (Hfresh (hd_ip hd) h0 Hnin E0). reflexivity.
      * destruct (Hdone ip Hip) as (h1 & E1 & Hpd).
        assert (Hne : ip <> hd_ip hd) by (intro; subst; contradiction).
        destruct (Hother ip h1 E1 Hne) as [Hf1 Hid].
        exists h1. rewrite Hfind, E1. simpl. rewrite Hf1. split; [reflexivity|].
        rewrite port_count_app. simpl.
        destruct (Nat.eqb_spec (h_id h1) (h_id h0)); [contradiction|].
        lia.
  - (* no row: a new one is appended with a fresh key *)
    set (nid := next_host_id (st_hosts st)).
    set (host := mkHostRow nid sid (hd_ip hd) (hd_hostname hd) (hd_mac hd) (hd_os hd)
                   HPending None None 0 None (List.length (hd_ports hd))).
    assert (Hnew : forall h, In h (st_hosts st) -> h_id h <> nid).
    { intros h Hh. pose proof (next_host_id_fresh _ _ Hh). unfold nid. lia. }
    assert (Hz : port_count (st_ports st) nid = 0).
    { apply port_count_none. intros p Hp E.
      destruct (Hrefs p Hp) as (h & Hh & Eh). apply (Hnew h Hh). congruence. }
    assert (Hfind : forall ip, first_host (st_hosts st ++ [host]) sid ip =
              match first_host (st_hosts st) sid ip with
              | Some x => Some x
              | None => if Nat.eqb sid sid && String.eqb (hd_ip hd) ip
                        then Some host else None
              end)
      by (intro ip; unfold first_host; rewrite find_app_one; reflexivity).
    split; [|split; [|split]]; simpl.
    + rewrite map_app. simpl. apply NoDup_app; [exact Hnd|constructor; [tauto|constructor]|].
      intros x Hx [<-|[]]. apply in_map_iff in Hx as (h & Eh & Hh).
      exact (Hnew h Hh Eh).
    + intros p Hp. apply in_app_or in Hp as [Hp|Hp].
      * destruct (Hrefs p Hp) as (h & Hh & Eh). exists h.
        split; [apply in_or_app; now left|exact Eh].
      * apply in_map_iff in Hp as (pd & <- & _). exists host.
        split; [apply in_or_app; right; now left|reflexivity].
    + intros ip h Hn Eh. rewrite Hfind in Eh.
      assert (Hne : ip <> hd_ip hd) by (intro; apply Hn; now left).
      destruct (first_host (st_hosts st) sid ip) as [h1|] eqn:E1.
      * injection Eh as <-. destruct (first_host_spec _ _ _ _ E1) as (Hh1 & _).
        rewrite port_count_app. simpl.
        destruct (Nat.eqb_spec (h_id h1) nid) as [E|_]; [exfalso; exact (Hnew h1 Hh1 E)|].
        rewrite Nat.add_0_r. apply (Hfresh ip); [intro; apply Hn; now right|exact E1].
      * rewrite Nat.eqb_refl in Eh. simpl in Eh.
        destruct (String.eqb_spec (hd_ip hd) ip); [congruence|discriminate].
    + intros ip [<-|Hip].
      * rewrite Hfind, E0, Nat.eqb_refl, String.eqb_refl. exists host.
        split; [reflexivity|]. rewrite port_count_app. simpl.
        rewrite Nat.eqb_refl, Hz. reflexivity.
      * destruct (Hdone ip Hip) as (h1 & E1 & Hpd).
        destruct (first_host_spec _ _ _ _ E1) as (Hh1 & _).
        exists h1. rewrite Hfind, E1. split; [reflexivity|].
        rewrite port_count_app. simpl.
        destruct (Nat.eqb_spec (h_id h1) nid) as [E|_]; [exfalso; exact (Hnew h1 Hh1 E)|].
        lia.
Qed.

Lemma save_hosts_inv (sid : nat) (hds : list HostData) :
  forall done st,
  save_inv sid done st ->
  NoDup (map hd_ip hds) ->
  (forall hd, In hd hds -> ~ In (hd_ip hd) done) ->
  save_inv sid (rev (map hd_ip hds) ++ done) (fold_left (save_host sid) hds st).
Proof.
  induction hds as [|hd hds IH]; intros done st Hinv Hnd Hout; simpl; [exact Hinv|].
  inversion Hnd as [|? ? Hnin Hnd']; subst.
  rewrite <- app_assoc. simpl.
  apply IH; [|exact Hnd'|].
  - apply save_host_inv; [exact Hinv|]. apply Hout. now left.
  - intros hd' Hhd' [E|Hin].
    + apply Hnin. rewrite E. now apply in_map.
    + exact (Hout hd' (or_intror Hhd') Hin).
Qed.

(** C3 (corrected).  Phase 5 ([_save_hosts_to_db]) leaves every saved
    host's [ports_discovered] equal to the number of its Port rows,
    provided the saved records have distinct IPs (as after the phase-3
    deduplication), primary keys are unique, and no Port row pointed at
    a Host row of this scan beforehand (the workers insert none). *)
Theorem save_hosts_ports_discovered (sid : nat) (st : Store)
    (hosts_data : list HostData) :
  NoDup (map h_id (st_hosts st)) ->
  (forall p, In p (st_ports st) ->
     exists h, In h (st_hosts st) /\ h_id h = p_host_id p /\ h_scan_id h <> sid) ->
  NoDup (map hd_ip hosts_data) ->
  forall hd, In hd hosts_data ->
  exists h,
    first_host (st_hosts (save_hosts_to_db sid st hosts_data)) sid (hd_ip hd) = Some h
    /\ h_ports_discovered h
        = port_count (st_ports (save_hosts_to_db sid st hosts_data)) (h_id h).
Proof.
  intros Hnd Hrefs Hnd' hd Hhd.
  assert (Hinv : save_inv sid [] st).
  { split; [exact Hnd|split; [|split]].
    - intros p Hp. destruct (Hrefs p Hp) as (h & Hh & Eh & _). eauto.
    - intros ip h _ Eh. destruct (first_host_spec _ _ _ _ Eh) as (Hh & Hs & _).
      apply port_count_none. intros p Hp E.
      destruct (Hrefs p Hp) as (h2 & Hh2 & Eh2 & Hs2).
      assert (h2 = h) by (apply (ids_inj _ _ _ Hnd Hh2 Hh); congruence).
      subst h2. contradiction.
    - intros ip []. }
  destruct (save_hosts_inv sid hosts_data [] st Hinv Hnd' (fun _ _ H => H))
    as (_ & _ & _ & Hdone).
  apply Hdone. rewrite app_nil_r, <- in_rev. now apply in_map.
Qed.


Lemma save_hosts_ports_discovered_witness :
  let st := mkStore [c3_row] [] in
  let hds := [mkHostData "10.0.0.5" "router.local" "" ""
                [mkPortData 22 "tcp"; mkPortData 80 "tcp"; mkPortData 443 "tcp"]] in
  (NoDup (map h_id (st_hosts st))
   /\ (forall p, In p (st_ports st) ->
        exists h, In h (st_hosts st) /\ h_id h = p_host_id p /\ h_scan_id h <> 7)
   /\ NoDup (map hd_ip hds))
  /\ exists h,
    first_host (st_hosts (save_hosts_to_db 7 st hds)) 7 "10.0.0.5" = Some h
    /\ h_ports_discovered h = port_count (st_ports (save_hosts_to_db 7 st hds)) (h_id h).
Proof.
  intros st hds.
  assert (H1 : NoDup (map h_id (st_hosts st))) by (repeat constructor; simpl; tauto).
  assert (H2 : forall p, In p (st_ports st) ->
        exists h, In h (st_hosts st) /\ h_id h = p_host_id p /\ h_scan_id h <> 7)
    by (simpl; tauto).
  assert (H3 : NoDup (map hd_ip hds)) by (repeat constructor; simpl; tauto).
  split; [auto|].
  exact (save_hosts_ports_discovered 7 st hds H1 H2 H3 (List.hd (mkHostData "" "" "" "" []) hds)
           (or_introl eq_refl)).
Defined.

End SaveFacts.

Module WorkerFacts.
Import Model Worker Scenarios.


(** C3 (corrected): counterexample.  Right after its worker commits,
    the host is COMPLETED with [ports_discovered = 1], while no Port row
    exists yet (they are inserted in phase 5). *)
Lemma completed_before_ports_counterexample :
  exists h, fst (scan_single_host happy_env (Some pending_row)) = Some h
    /\ h_scan_status h = HCompleted
    /\ h_ports_discovered h = 1
    /\ port_count [] (h_id h) = 0.
Proof. eexists. split; [reflexivity|]. repeat split; reflexivity. Qed.

(** A raising [parse_and_update] whose commit did not fail left the
    session as it was. *)
Lemma parse_and_update_raise_state (env : WorkerEnv) (s : Session) (e : string) :
  db_fault env CommitCompleted = false ->
  snd (parse_and_update env s) = inl e -> fst (parse_and_update env s) = s.
Proof.
  intro Hc.
  unfold parse_and_update, bind, query, when_host, resolve_hostname,
    update_commit, raise, ret.
  rewrite Hc.
  destruct (parse env) as [[|hd rest]|msg]; simpl;
    [intro H; discriminate H| |reflexivity].
  destruct (needs_rollback s) eqn:Hn; simpl; [reflexivity|].
  destruct (db_fault env QReparse); simpl; [reflexivity|].
  destruct (committed s) as [h|]; simpl; [|intro H; discriminate H].
  destruct (negb (blank (hd_hostname hd))); simpl;
    [rewrite Hn; intro H; discriminate H|].
  destruct (dns env); simpl; try reflexivity; rewrite Hn; intro H; discriminate H.
Qed.

(** C4 (code bug).  (1) A runner error marks the row FAILED with its
    text, and (2) when the runner returned and the parse raised, the row
    is still marked COMPLETED with [scan_completed_at = now], provided
    no commit fails.  But a database error after the runner returned
    does not end COMPLETED: (3) when the commit of the parsed fields
    fails, the inner and outer handlers' re-queries raise
    [PendingRollbackError], the row stays SCANNING and the exception
    escapes the worker; (4) when the commit of the SCANNING mark fails,
    the row stays as it was loaded and the exception escapes. *)
Theorem worker_db_error_escapes :
  (forall env h msg,
     runner env = RunErr msg ->
     db_fault env QStart = false -> db_fault env CommitScanning = false ->
     db_fault env QFailed = false -> db_fault env CommitFailed = false ->
     exists h', fst (scan_single_host env (Some h)) = Some h'
       /\ h_scan_status h' = HFailed /\ h_scan_error_message h' = Some msg
       /\ h_scan_completed_at h' = Some (now env))
  /\ (forall env h xml e,
     runner env = RunOk xml ->
     db_fault env QStart = false -> db_fault env CommitScanning = false ->
     db_fault env CommitCompleted = false ->
     snd (parse_and_update env (mkSession (Some (mark_scanning (now env) h)) false))
       = inl e ->
     db_fault env QParseErr = false -> db_fault env CommitParseErr = false ->
     exists h', fst (scan_single_host env (Some h)) = Some h'
       /\ h_scan_status h' = HCompleted /\ h_scan_completed_at h' = Some (now env))
  /\ (forall env h xml hd rest,
     runner env = RunOk xml -> parse env = ParseOk (hd :: rest) ->
     blank (hd_hostname hd) = false ->
     db_fault env QStart = false -> db_fault env CommitScanning = false ->
     db_fault env QReparse = false -> db_fault env CommitCompleted = true ->
     scan_single_host env (Some h)
       = (Some (mark_scanning (now env) h),
          inl (pending_rollback_error (db_error env)))
     /\ h_scan_status (mark_scanning (now env) h) = HScanning)
  /\ (forall env h,
     db_fault env QStart = false -> db_fault env CommitScanning = true ->
     scan_single_host env (Some h)
       = (Some h, inl (pending_rollback_error (db_error env)))).
Proof.
  split; [|split; [|split]].
  - intros env h msg Hr H1 H2 H3 H4.
    unfold scan_single_host, in_session, scan_single_host_body, failure_handler,
      worker_prefix_body, try_except, bind, query, when_host, update_commit,
      raise, ret.
    simpl. rewrite H1, H2, Hr. simpl. rewrite H3, H4. eexists. repeat split.
  - intros env h xml e Hr H1 H2 Hc Hp H3 H4.
    pose proof (parse_and_update_raise_state _ _ _ Hc Hp) as Hs.
    unfold scan_single_host, in_session, scan_single_host_body, worker_prefix_body,
      try_except, bind, query, when_host, update_commit, raise, ret.
    simpl. rewrite H1, H2, Hr. simpl.
    match goal with
    | |- context [parse_and_update ?en ?ss] =>
        destruct (parse_and_update en ss) as [s r] eqn:E
    end.
    simpl in Hp, Hs. subst s r.
    unfold parse_error_handler, bind, query, when_host, update_commit, ret.
    simpl. rewrite H3. simpl. rewrite H4. eexists. repeat split.
  - intros env h xml hd rest Hr Hp Hb H1 H2 H3 Hc. split; [|reflexivity].
    unfold scan_single_host, in_session, scan_single_host_body, worker_prefix_body,
      try_except, bind, parse_and_update, parse_error_handler, failure_handler,
      resolve_hostname, query, when_host, update_commit, raise, ret.
    simpl. rewrite H1, H2, Hr. simpl. rewrite Hp, H3. simpl. rewrite Hb. simpl.
    rewrite Hc. reflexivity.
  - intros env h H1 H2.
    unfold scan_single_host, in_session, scan_single_host_body, worker_prefix_body,
      failure_handler, try_except, bind, query, when_host, update_commit, raise, ret.
    simpl. rewrite H1, H2. reflexivity.
Qed.

Lemma worker_db_error_escapes_witness :
  (exists h', fst (scan_single_host timeout_env (Some pending_row)) = Some h'
     /\ h_scan_status h' = HFailed
     /\ h_scan_error_message h' = Some "Command timed out after 300 seconds"
     /\ h_scan_completed_at h' = Some 100%Z)
  /\ (exists h', fst (scan_single_host malformed_env (Some pending_row)) = Some h'
     /\ h_scan_status h' = HCompleted /\ h_scan_completed_at h' = Some 100%Z)
  /\ (scan_single_host locked_completed_env (Some pending_row)
       = (Some (mark_scanning 100 pending_row),
          inl (pending_rollback_error "database is locked"))
     /\ h_scan_status (mark_scanning 100 pending_row) = HScanning)
  /\ scan_single_host locked_env (Some pending_row)
       = (Some pending_row, inl (pending_rollback_error "database is locked")).
Proof.
  destruct worker_db_error_escapes as (P1 & P2 & P3 & P4).
  split; [|split; [|split]].
  - exact (P1 timeout_env pending_row _ eq_refl eq_refl eq_refl eq_refl eq_refl).
  - exact (P2 malformed_env pending_row _ "no element found: line 1, column 0"
             eq_refl eq_refl eq_refl eq_refl eq_refl eq_refl eq_refl).
  - exact (P3 locked_completed_env pending_row _ _ _ eq_refl eq_refl
             eq_refl eq_refl eq_refl eq_refl eq_refl).
  - exact (P4 locked_env pending_row eq_refl eq_refl).
Defined.

End WorkerFacts.

Module DiscoveryFacts.
Import Discovery.

Lemma opt_eqb_true (o : option string) (v : string) :
  opt_eqb o v = true <-> o = Some v.
Proof.
  destruct o as [x|]; simpl; [|split; discriminate].
  rewrite String.eqb_eq. split; [intros ->|injection 1]; auto.
Qed.

Lemma status_up_iff (host : Elem) :
  status_up host = true <->
  exists status, find_child "status" host = Some status
                 /\ get "state" status = Some "up".
Proof.
  unfold status_up. destruct (find_child "status" host) as [st|].
  - rewrite opt_eqb_true. split; [eauto|]. intros (st' & E & G). now injection E as ->.
  - split; [discriminate|]. intros (st' & E & _). discriminate.
Qed.

Lemma has_open_port_iff (host : Elem) :
  has_open_port host = true <->
  exists ports port st, find_child "ports" host = Some ports
    /\ In port (findall "port" ports)
    /\ find_child "state" port = Some st
    /\ get "state" st = Some "open".
Proof.
  unfold has_open_port. destruct (find_child "ports" host) as [ports|].
  - rewrite existsb_exists. split.
    + intros (port & Hin & Hst).
      destruct (find_child "state" port) as [st|] eqn:E; [|discriminate].
      apply opt_eqb_true in Hst. exists ports, port, st. auto.
    + intros (ps & port & st & Eps & Hin & Est & G). injection Eps as <-.
      exists port. split; [exact Hin|]. rewrite Est. now apply opt_eqb_true.
  - split; [discriminate|]. intros (ps & _ & _ & E & _). discriminate.
Qed.

Lemma live_host_iff (host : Elem) :
  status_up host && has_open_port host = true <-> live_host host.
Proof.
  rewrite andb_true_iff, status_up_iff, has_open_port_iff. reflexivity.
Qed.

(** C5.  [discover_hosts] returns exactly the [addr] of the IPv4
    [address] element of the [host] elements whose [status] is [up] and
    which have an [open] port; a host that is not live in this sense
    contributes nothing (in particular an [up] host with no open port). *)
Theorem discover_hosts_live_ips (root : Elem) :
  (forall ip, In ip (discover_ips root) <->
     exists host addr, In host (findall "host" root) /\ live_host host
       /\ find_ipv4 host = Some addr /\ get "addr" addr = ip)
  /\ (forall host, ~ live_host host -> host_ips host = []).
Proof.
  split.
  - intro ip. unfold discover_ips. rewrite in_flat_map. split.
    + intros (host & Hin & Hip). unfold host_ips in Hip.
      destruct (status_up host && has_open_port host) eqn:L; [|contradiction].
      destruct (find_ipv4 host) as [addr|] eqn:A; [|contradiction].
      destruct Hip as [<-|[]]. exists host, addr.
      split; [exact Hin|split; [now apply live_host_iff|split; [exact A|reflexivity]]].
    + intros (host & addr & Hin & Hlive & A & G). exists host. split; [exact Hin|].
      unfold host_ips. apply live_host_iff in Hlive. rewrite Hlive, A, G. now left.
  - intros host Hn. unfold host_ips.
    destruct (status_up host && has_open_port host) eqn:L; [|reflexivity].
    exfalso. apply Hn. now apply live_host_iff.
Qed.

Lemma discover_hosts_live_ips_witness :
  In (Some "10.0.0.5") (discover_ips Scenarios.discovery_root)
  /\ host_ips Scenarios.up_closed_host = []
  /\ discover_ips Scenarios.discovery_root = [Some "10.0.0.5"].
Proof.
  split; [|split].
  - apply (proj1 (discover_hosts_live_ips Scenarios.discovery_root)).
    exists Scenarios.up_open_host.
    eexists. split; [simpl; now left|].
    split; [apply live_host_iff; reflexivity|].
    split; reflexivity.
  - apply (proj2 (discover_hosts_live_ips Scenarios.discovery_root)).
    intro H. apply live_host_iff in H. discriminate H.
  - reflexivity.
Defined.

End DiscoveryFacts.

Module DedupFacts.
Import Model Reconcile.

Lemma dict_get_set (ip k : string) (v : HostData) (m : list (string * HostData)) :
  dict_get ip (dict_set k v m) = if String.eqb k ip then Some v else dict_get ip m.
Proof.
  induction m as [|[k' w] m IH]; simpl; [reflexivity|].
  destruct (String.eqb_spec k' k) as [->|Hne]; simpl.
  - destruct (String.eqb k ip); reflexivity.
  - rewrite IH. destruct (String.eqb_spec k ip), (String.eqb_spec k' ip); congruence.
Qed.

Lemma dedup_step_get (ip : string) (m : list (string * HostData)) (hd : HostData) :
  truthy ip = true ->
  dict_get ip (dedup_step m hd) =
  if String.eqb (hd_ip hd) ip then
    match dict_get ip m with
    | None => Some hd
    | Some old =>
        if Nat.ltb (List.length (hd_ports old)) (List.length (hd_ports hd))
        then Some hd else dict_get ip m
    end
  else dict_get ip m.
Proof.
  intro Ht. unfold dedup_step.
  destruct (String.eqb_spec (hd_ip hd) ip) as [E|Hne].
  - rewrite E, Ht. destruct (dict_get ip m) as [old|] eqn:G.
    + destruct (Nat.ltb _ _); [|exact G].
      rewrite dict_get_set, String.eqb_refl. reflexivity.
    + rewrite dict_get_set, String.eqb_refl. reflexivity.
  - destruct (truthy (hd_ip hd)); [|reflexivity].
    assert (Hs : String.eqb (hd_ip hd) ip = false) by (now apply String.eqb_neq).
    destruct (dict_get (hd_ip hd) m) as [old|];
      [destruct (Nat.ltb _ _)|]; rewrite ?dict_get_set, ?Hs; reflexivity.
Qed.

Lemma fold_get (ip : string) (l : list HostData) :
  truthy ip = true ->
  forall m, dict_get ip (fold_left dedup_step l m) = keep_fold ip l (dict_get ip m).
Proof.
  intro Ht. induction l as [|hd l IH]; intro m; simpl; [reflexivity|].
  rewrite IH, dedup_step_get by exact Ht. reflexivity.
Qed.

Lemma keep_fold_some (ip : string) (l : list HostData) :
  forall old,
  keep_fold ip l (Some old) =
  if Nat.leb (max_ports ip l) (List.length (hd_ports old)) then Some old
  else kept_record_spec ip l.
Proof.
  unfold kept_record_spec, max_ports.
  induction l as [|hd l IH]; intro old; simpl; [reflexivity|].
  unfold records_for at 1 2 3; simpl. fold (records_for ip l).
  destruct (String.eqb_spec (hd_ip hd) ip) as [E|_]; [|apply IH]. simpl.
  set (M := fold_right Nat.max 0
              (map (fun hd0 => List.length (hd_ports hd0)) (records_for ip l))).
  fold M in IH.
  destruct (Nat.ltb_spec (List.length (hd_ports old)) (List.length (hd_ports hd))).
  - rewrite IH. destruct (Nat.leb_spec M (List.length (hd_ports hd))).
    + replace (Nat.max (List.length (hd_ports hd)) M) with (List.length (hd_ports hd)) by lia.
      rewrite Nat.eqb_refl. destruct (Nat.leb_spec (List.length (hd_ports hd))
                                         (List.length (hd_ports old))); [lia|reflexivity].
    + replace (Nat.max (List.length (hd_ports hd)) M) with M by lia.
      destruct (Nat.leb_spec M (List.length (hd_ports old))); [lia|].
      destruct (Nat.eqb_spec (List.length (hd_ports hd)) M); [lia|reflexivity].
  - rewrite IH. destruct (Nat.leb_spec M (List.length (hd_ports old))).
    + destruct (Nat.leb_spec (Nat.max (List.length (hd_ports hd)) M)
                  (List.length (hd_ports old))); [reflexivity|lia].
    + replace (Nat.max (List.length (hd_ports hd)) M) with M by lia.
      destruct (Nat.leb_spec M (List.length (hd_ports old))); [lia|].
      destruct (Nat.eqb_spec (List.length (hd_ports hd)) M); [lia|reflexivity].
Qed.

Lemma keep_fold_none (ip : string) (l : list HostData) :
  keep_fold ip l None = kept_record_spec ip l.
Proof.
  induction l as [|hd l IH]; simpl; [reflexivity|].
  unfold kept_record_spec, max_ports, records_for in *; simpl.
  destruct (String.eqb_spec (hd_ip hd) ip) as [E|_]; [|exact IH]. simpl.
  rewrite keep_fold_some. unfold kept_record_spec, max_ports, records_for.
  set (M := fold_right Nat.max 0
              (map (fun hd0 => List.length (hd_ports hd0))
                 (filter (fun hd0 => String.eqb (hd_ip hd0) ip) l))).
  destruct (Nat.leb_spec M (List.length (hd_ports hd))).
  - replace (Nat.max (List.length (hd_ports hd)) M) with (List.length (hd_ports hd)) by lia.
    now rewrite Nat.eqb_refl.
  - replace (Nat.max (List.length (hd_ports hd)) M) with M by lia.
    destruct (Nat.eqb_spec (List.length (hd_ports hd)) M); [lia|reflexivity].
Qed.

Lemma dict_get_in (k : string) (v : HostData) (m : list (string * HostData)) :
  dict_get k m = Some v -> In (k, v) m.
Proof.
  induction m as [|[k' w] m IH]; simpl; [discriminate|].
  destruct (String.eqb_spec k' k) as [->|_]; [injection 1 as ->; now left|].
  intro E. right. exact (IH E).
Qed.

Lemma in_dict_get (k : string) (v : HostData) (m : list (string * HostData)) :
  NoDup (map fst m) -> In (k, v) m -> dict_get k m = Some v.
Proof.
  induction m as [|[k' w] m IH]; simpl; [tauto|].
  intros Hnd Hin. inversion Hnd as [|? ? Hn Hnd']; subst.
  destruct Hin as [E|Hin].
  - injection E as -> ->. now rewrite String.eqb_refl.
  - destruct (String.eqb_spec k' k) as [->|_]; [|exact (IH Hnd' Hin)].
    exfalso. apply Hn. change k with (fst (k, v)). now apply in_map.
Qed.

Lemma dict_set_in (k : string) (v : HostData) (m : list (string * HostData)) kv :
  In kv (dict_set k v m) -> kv = (k, v) \/ In kv m.
Proof.
  induction m as [|[k' w] m IH]; simpl.
  - intros [<-|[]]. now left.
  - destruct (String.eqb_spec k' k) as [->|_]; simpl.
    + intros [<-|H]; [now left|right; now right].
    + intros [<-|H]; [right; now left|]. destruct (IH H); [now left|right; now right].
Qed.

Lemma dict_set_nodup (k : string) (v : HostData) (m : list (string * HostData)) :
  NoDup (map fst m) -> NoDup (map fst (dict_set k v m)).
Proof.
  induction m as [|[k' w] m IH]; simpl; intro Hnd.
  - repeat constructor. tauto.
  - inversion Hnd as [|? ? Hn Hnd']; subst.
    destruct (String.eqb_spec k' k) as [->|Hne]; simpl; constructor; auto.
    intro Hin. apply in_map_iff in Hin as ([k2 w2] & E & Hin). simpl in E. subst k2.
    destruct (dict_set_in _ _ _ _ Hin) as [E|Hin'].
    + injection E as E _. congruence.
    + apply Hn. change k' with (fst (k', w2)). now apply in_map.
Qed.

(** Keys are distinct, each value carries its key as [ip], keys are
    truthy. *)
Lemma dedup_dict_ok (l : list HostData) :
  forall m,
  NoDup (map fst m) ->
  (forall k v, In (k, v) m -> hd_ip v = k /\ truthy k = true) ->
  NoDup (map fst (fold_left dedup_step l m))
  /\ (forall k v, In (k, v) (fold_left dedup_step l m) -> hd_ip v = k /\ truthy k = true).
Proof.
  induction l as [|hd l IH]; intros m Hnd Hkv; simpl; [auto|].
  apply IH.
  - unfold dedup_step. destruct (truthy (hd_ip hd)); [|exact Hnd].
    destruct (dict_get (hd_ip hd) m); [destruct (Nat.ltb _ _)|];
      auto using dict_set_nodup.
  - unfold dedup_step. destruct (truthy (hd_ip hd)) eqn:T; [|exact Hkv].
    assert (Hset : forall k v, In (k, v) (dict_set (hd_ip hd) hd m) ->
                    hd_ip v = k /\ truthy k = true).
    { intros k v Hin. destruct (dict_set_in _ _ _ _ Hin) as [E|H].
      - injection E as -> ->. auto.
      - exact (Hkv k v H). }
    destruct (dict_get (hd_ip hd) m); [destruct (Nat.ltb _ _)|]; auto.
Qed.

(** C6.  Deduplication by IP keeps, for every IP, the first encountered
    record among those with the most ports ([kept_record_spec]); the
    values of [hosts_by_ip] are exactly these records, one per IP. *)
Theorem dedup_keeps_most_ports (l : list HostData) :
  (forall ip, truthy ip = true -> dict_get ip (hosts_by_ip l) = kept_record_spec ip l)
  /\ (forall hd, In hd (dedup_hosts l) <->
        truthy (hd_ip hd) = true /\ kept_record_spec (hd_ip hd) l = Some hd).
Proof.
  assert (Hget : forall ip, truthy ip = true ->
                 dict_get ip (hosts_by_ip l) = kept_record_spec ip l).
  { intros ip Ht. unfold hosts_by_ip. rewrite fold_get by exact Ht.
    apply keep_fold_none. }
  destruct (dedup_dict_ok l [] (NoDup_nil _) (fun k v H => False_ind _ H))
    as [Hnd Hkv].
  split; [exact Hget|]. intro hd. unfold dedup_hosts. split.
  - intro Hin. apply in_map_iff in Hin as ([k v] & E & Hin). simpl in E. subst v.
    destruct (Hkv k hd Hin) as [Ek Ht]. subst k. split; [exact Ht|].
    rewrite <- Hget by exact Ht. exact (in_dict_get _ _ _ Hnd Hin).
  - intros [Ht Hk]. rewrite <- Hget in Hk by exact Ht.
    apply in_map_iff. exists (hd_ip hd, hd). split; [reflexivity|].
    exact (dict_get_in _ _ _ Hk).
Qed.

Lemma dedup_keeps_most_ports_witness :
  dict_get "10.0.0.5" (hosts_by_ip Scenarios.phase3_records)
    = Some Scenarios.detailed_record
  /\ In Scenarios.detailed_record (dedup_hosts Scenarios.phase3_records)
  /\ ~ In Scenarios.discovery_record (dedup_hosts Scenarios.phase3_records)
  /\ List.length (hd_ports Scenarios.detailed_record) = 3.
Proof.
  split; [|split; [|split]].
  - rewrite (proj1 (dedup_keeps_most_ports Scenarios.phase3_records) "10.0.0.5"
               eq_refl).
    vm_compute. reflexivity.
  - apply (proj2 (dedup_keeps_most_ports Scenarios.phase3_records)).
    split; vm_compute; reflexivity.
  - rewrite (proj2 (dedup_keeps_most_ports Scenarios.phase3_records)).
    intros [_ H]. vm_compute in H. discriminate H.
  - reflexivity.
Defined.

End DedupFacts.

Module PoolFacts.
Import Model Worker Pool Scenarios.

Lemma pool_step_running_bound (w sid : nat) (env : string -> WorkerEnv)
    (p q : PoolState) :
  pool_step w sid env p q ->
  List.length (pool_running p) <= w -> List.length (pool_running q) <= w.
Proof.
  intros Hs Hp. inversion Hs; subst; simpl in *.
  - lia.
  - rewrite length_app in *. simpl in Hp. lia.
Qed.

Lemma pool_steps_running_bound (w sid : nat) (env : string -> WorkerEnv)
    (p q : PoolState) :
  pool_steps w sid env p q ->
  List.length (pool_running p) <= w -> List.length (pool_running q) <= w.
Proof.
  induction 1 as [p|p q r Hs _ IH]; [auto|].
  intro Hp. apply IH. exact (pool_step_running_bound _ _ _ _ _ Hs Hp).
Qed.

(** C7.  The pool never runs more than [W] workers at once, but a worker
    whose detailed scan parses to no host record returns without leaving
    SCANNING: with [W = 1], after the first worker finished and the
    second started, two hosts of the scan are SCANNING. *)
Theorem pool_scanning_exceeds_width :
  (forall w sid env rows ips p,
     pool_steps w sid env (pool_init rows ips) p ->
     List.length (pool_running p) <= w)
  /\ exists p,
       pool_steps 1 7 host_down_env (pool_init [pending_a; pending_b]
                                                ["10.0.0.1"; "10.0.0.2"]) p
       /\ List.length (pool_running p) <= 1
       /\ scanning_count 7 (pool_rows p) = 2.
Proof.
  split.
  - intros w sid env rows ips p Hs.
    apply (pool_steps_running_bound _ _ _ _ _ Hs). simpl. lia.
  - eexists. split; [|split].
    + eapply pool_next.
      { apply pool_start. simpl. lia. }
      eapply pool_next.
      { apply (pool_finish 1 7 host_down_env _ _ [] []). }
      eapply pool_next.
      { apply pool_start. simpl. lia. }
      apply pool_refl.
    + simpl. lia.
    + vm_compute. reflexivity.
Qed.

Lemma pool_scanning_exceeds_width_witness :
  List.length (pool_running (pool_init [pending_a] ["10.0.0.1"])) <= 1.
Proof.
  apply (proj1 pool_scanning_exceeds_width 1 7 host_down_env [pending_a]
           ["10.0.0.1"]).
  apply pool_refl.
Defined.

End PoolFacts.

Module RetentionFacts.
Import Model Retention Scenarios.
Local Open Scope Z_scope.

Lemma filter_all_true {A} (l : list A) : filter (fun _ => true) l = l.
Proof. induction l as [|x l IH]; simpl; [|rewrite IH]; reflexivity. Qed.

Lemma filter_all_false {A} (l : list A) : filter (fun _ => false) l = [].
Proof. induction l as [|x l IH]; simpl; [|rewrite IH]; reflexivity. Qed.

Lemma in_ids_iff (ids : list nat) (n : nat) : in_ids ids n = true <-> In n ids.
Proof.
  unfold in_ids. rewrite existsb_exists. split.
  - intros (m & Hm & E). apply Nat.eqb_eq in E. now subst.
  - intro H. exists n. split; [exact H|apply Nat.eqb_refl].
Qed.

Lemma nodup_map_inj {A B} (f : A -> B) (l : list A) (x y : A) :
  NoDup (map f l) -> In x l -> In y l -> f x = f y -> x = y.
Proof.
  induction l as [|z l IH]; simpl; [tauto|].
  intros Hnd Hx Hy E. inversion Hnd as [|? ? Hn Hnd']; subst.
  destruct Hx as [<-|Hx], Hy as [<-|Hy]; auto.
  - exfalso. apply Hn. rewrite E. now apply in_map.
  - exfalso. apply Hn. rewrite <- E. now apply in_map.
Qed.

Lemma remove_files_shape (arts : list ArtifactRow) :
  forall disk, exists files, fst (remove_files arts disk) = map RemoveFile files.
Proof.
  induction arts as [|b rest IH]; simpl; intro disk; [now exists []|].
  destruct (existsb (String.eqb (a_file_path b)) disk); [|apply IH].
  destruct (IH (filter (fun q => negb (String.eqb q (a_file_path b))) disk))
    as [files E].
  destruct (remove_files rest _) as [effs disk'].
  simpl in E. exists (a_file_path b :: files). simpl. now rewrite E.
Qed.

Lemma remove_files_covers (arts : list ArtifactRow) :
  forall disk a, In a arts -> In (a_file_path a) disk ->
  In (RemoveFile (a_file_path a)) (fst (remove_files arts disk)).
Proof.
  induction arts as [|b rest IH]; simpl; [tauto|]. intros disk a Hin Hd.
  destruct (existsb (String.eqb (a_file_path b)) disk) eqn:X.
  - specialize (IH (filter (fun q => negb (String.eqb q (a_file_path b))) disk) a).
    destruct (remove_files rest _) as [effs disk']. simpl in *.
    destruct (String.eqb_spec (a_file_path a) (a_file_path b)) as [Ep|Ne].
    + left. now rewrite Ep.
    + right. destruct Hin as [<-|Hin]; [congruence|]. apply IH; [exact Hin|].
      apply filter_In. split; [exact Hd|]. apply negb_true_iff.
      now apply String.eqb_neq.
  - destruct Hin as [->|Hin]; [|now apply IH].
    exfalso. assert (existsb (String.eqb (a_file_path a)) disk = true) as Y.
    { apply existsb_exists. exists (a_file_path a). split; [exact Hd|].
      apply String.eqb_refl. }
    congruence.
Qed.

(** Once the retention period and the cutoff are computed, the job is
    the same whether or not an old scan exists. *)
Lemma cleanup_old_data_eq (now : Z) (st : RStore) (d c : Z) :
  retention_days st = Some d -> cutoff_of now d = Some c ->
  cleanup_old_data now st =
  (fst (remove_files
          (filter (fun a => in_ids (map sc_id (filter (older_than c) (r_scans st)))
                                   (a_scan_id a)) (r_artifacts st)) (r_disk st))
     ++ map DeleteScanRow (map sc_id (filter (older_than c) (r_scans st))),
   mkRStore
     (filter (fun s => negb (in_ids (map sc_id (filter (older_than c) (r_scans st)))
                                    (sc_id s))) (r_scans st))
     (filter (fun a => negb (in_ids (map sc_id (filter (older_than c) (r_scans st)))
                                    (a_scan_id a))) (r_artifacts st))
     (r_settings st)
     (snd (remove_files
             (filter (fun a => in_ids (map sc_id (filter (older_than c) (r_scans st)))
                                      (a_scan_id a)) (r_artifacts st)) (r_disk st)))).
Proof.
  intros Hd Hc. unfold cleanup_old_data. rewrite Hd, Hc.
  destruct (filter (older_than c) (r_scans st)) as [|s0 l] eqn:F.
  - simpl. rewrite filter_all_false, !filter_all_true. simpl.
    destruct st; reflexivity.
  - destruct (remove_files _ _) as [effs disk']. reflexivity.
Qed.

Lemma retention_unclamped_counterexample :
  retention_days retention_400_store = Some 400
  /\ older_than (retention_now - 365 * 86400) old_scan = true
  /\ cleanup_old_data retention_now retention_400_store = ([], retention_400_store).
Proof. split; [|split]; vm_compute; reflexivity. Qed.

(** C8 (amended).  With [d] the parsed, unclamped [data_retention_days]
    (90 when the setting is absent) and [c = now - d days] a valid
    datetime, the job removes the existing on-disk file of every
    artifact of an old scan, then deletes exactly the scans created
    before [c] (scan ids being a primary key). *)
Theorem cleanup_old_data_deletes (now : Z) (st : RStore) (d c : Z) :
  retention_days st = Some d ->
  cutoff_of now d = Some c ->
  NoDup (map sc_id (r_scans st)) ->
  (setting_lookup "data_retention_days" (r_settings st) = None -> d = 90)
  /\ (exists files, fst (cleanup_old_data now st)
        = map RemoveFile files
          ++ map DeleteScanRow (map sc_id (filter (older_than c) (r_scans st))))
  /\ (forall s, In s (r_scans st) ->
        (In s (r_scans (snd (cleanup_old_data now st))) <-> older_than c s = false))
  /\ (forall a, In a (r_artifacts st) ->
        (exists s, In s (r_scans st) /\ older_than c s = true
                   /\ sc_id s = a_scan_id a) ->
        In (a_file_path a) (r_disk st) ->
        In (RemoveFile (a_file_path a)) (fst (cleanup_old_data now st))).
Proof.
  intros Hd Hc Hnd. rewrite (cleanup_old_data_eq now st d c Hd Hc). cbn [fst snd r_scans].
  split; [|split; [|split]].
  - intro E. unfold retention_days in Hd. rewrite E in Hd. congruence.
  - destruct (remove_files_shape
                (filter (fun a => in_ids (map sc_id (filter (older_than c) (r_scans st)))
                                         (a_scan_id a)) (r_artifacts st)) (r_disk st))
      as [files E].
    exists files. now rewrite E.
  - intros s Hs. rewrite filter_In. split.
    + intros [_ H]. destruct (older_than c s) eqn:O; [|reflexivity].
      exfalso. rewrite negb_true_iff in H.
      assert (in_ids (map sc_id (filter (older_than c) (r_scans st))) (sc_id s) = true)
        as I.
      { apply in_ids_iff, in_map, filter_In. auto. }
      congruence.
    + intro O. split; [exact Hs|]. apply negb_true_iff.
      destruct (in_ids _ (sc_id s)) eqn:I; [|reflexivity].
      apply in_ids_iff, in_map_iff in I as (s' & E & Hs').
      apply filter_In in Hs' as [Hin' O'].
      assert (s' = s) as -> by exact (nodup_map_inj sc_id _ _ _ Hnd Hin' Hs E).
      congruence.
  - intros a Ha (s & Hs & O & E) Hdisk. apply in_or_app. left.
    apply remove_files_covers; [|exact Hdisk].
    apply filter_In. split; [exact Ha|]. apply in_ids_iff. rewrite <- E.
    apply in_map, filter_In. auto.
Qed.

Lemma cleanup_old_data_deletes_witness :
  (exists files, fst (cleanup_old_data retention_now retention_30_store)
                 = map RemoveFile files ++ [DeleteScanRow 1])
  /\ (In recent_scan (r_scans (snd (cleanup_old_data retention_now retention_30_store)))
      <-> older_than (retention_now - 30 * 86400) recent_scan = false).
Proof.
  assert (Hnd : NoDup (map sc_id (r_scans retention_30_store))).
  { simpl. constructor; [simpl; intros [H|[]]; discriminate|].
    constructor; [intros []|constructor]. }
  destruct (cleanup_old_data_deletes retention_now retention_30_store 30
              (retention_now - 30 * 86400) eq_refl eq_refl Hnd)
    as (_ & Hshape & Hscans & _).
  split; [exact Hshape|]. apply Hscans. simpl. right. left. reflexivity.
Defined.

End RetentionFacts.

Module SchedulerFacts.
Import Model Scheduler Scenarios.

Lemma find_put_schedule (id : nat) (s' : ScheduleRow) (ss : list ScheduleRow) :
  sch_id s' = id ->
  (exists s, find (fun x => Nat.eqb (sch_id x) id) ss = Some s) ->
  find (fun x => Nat.eqb (sch_id x) id) (put_schedule s' ss) = Some s'.
Proof.
  intros Hid. subst id. induction ss as [|x ss IH]; simpl; [intros (s & E); discriminate|].
  destruct (Nat.eqb (sch_id x) (sch_id s')) eqn:E; simpl.
  - now rewrite Nat.eqb_refl.
  - rewrite E. exact IH.
Qed.

Lemma next_scan_id_fresh (ss : list ScanRow) : ~ In (next_scan_id ss) (map sc_id ss).
Proof.
  assert (H : forall n, In n (map sc_id ss) -> n <= fold_right Nat.max 0 (map sc_id ss)).
  { induction ss as [|x ss IH]; simpl; [tauto|].
    intros n [<-|Hn]; [lia|]. specialize (IH n Hn). lia. }
  unfold next_scan_id. intro Hin. specialize (H _ Hin). lia.
Qed.

Lemma update_next_run_fields (cron_next : string -> Z -> option Z) (now : Z)
    (s : ScheduleRow) :
  sch_id (update_next_run cron_next now s) = sch_id s
  /\ sch_last_run_at (update_next_run cron_next now s) = sch_last_run_at s.
Proof. unfold update_next_run. destruct (cron_next _ _); auto. Qed.

Lemma trigger_disabled_counterexample :
  find_schedule 3 (schedule_store false) = Some (nightly false)
  /\ trigger_schedule daily_cron 3 63870000000 (schedule_store false)
     = schedule_store false.
Proof. split; reflexivity. Qed.

(** C9 (amended).  Triggering an enabled schedule appends one new
    [Scan] row (fresh id, PENDING, progress 0, [schedule_id] set to the
    schedule, [network_range] its stored CIDR list) and sets the
    schedule's [last_run_at] to [now], whatever its cron expression. *)
Theorem trigger_schedule_enabled (cron_next : string -> Z -> option Z)
    (id : nat) (now : Z) (st : SStore) (s : ScheduleRow) :
  find_schedule id st = Some s ->
  sch_enabled s = true ->
  (exists scan,
     s_scans (trigger_schedule cron_next id now st) = s_scans st ++ [scan]
     /\ ~ In (sc_id scan) (map sc_id (s_scans st))
     /\ sc_status scan = Pending
     /\ sc_progress_percent scan = 0%Z
     /\ sc_schedule_id scan = Some id
     /\ sc_network_range scan = sch_network_range s)
  /\ (exists s', find_schedule id (trigger_schedule cron_next id now st) = Some s'
                 /\ sch_last_run_at s' = Some now).
Proof.
  intros Hf He.
  assert (Hid : sch_id s = id).
  { apply find_some in Hf as [_ E]. now apply Nat.eqb_eq. }
  unfold trigger_schedule, execute_scheduled_scan. rewrite Hf, He. simpl.
  split.
  - eexists. split; [reflexivity|]. split; [apply next_scan_id_fresh|].
    simpl. rewrite Hid. auto.
  - destruct (update_next_run_fields cron_next now (set_last_run now s)) as [E1 E2].
    eexists. split.
    + unfold find_schedule. simpl. apply find_put_schedule.
      * rewrite E1. exact Hid.
      * exists s. exact Hf.
    + rewrite E2. reflexivity.
Qed.

Lemma trigger_schedule_enabled_witness :
  exists scan,
    s_scans (trigger_schedule daily_cron 3 63870000000 (schedule_store true))
      = [recent_scan; scan]
    /\ sc_status scan = Pending
    /\ sc_schedule_id scan = Some 3
    /\ sc_network_range scan = "192.168.1.0/24,10.0.0.0/24".
Proof.
  destruct (proj1 (trigger_schedule_enabled daily_cron 3 63870000000
                     (schedule_store true) (nightly true) eq_refl eq_refl))
    as (scan & E & _ & Hst & _ & Hsid & Hrange).
  exists scan. split; [exact E|]. split; [exact Hst|]. split; [exact Hsid|].
  exact Hrange.
Defined.

End SchedulerFacts.

Module WatchdogFacts.
Import Model Watchdog Scenarios.

(** C10.  A sweep leaves every scan in a terminal status exactly as it
    was; any scan it changes was PENDING or RUNNING and becomes FAILED
    with [completed_at = now]. *)
Theorem sweep_only_pending_running (fmt_1f : Z -> Z -> string)
    (issues : ScanRow -> list string) (now : Z) (scans : list ScanRow)
    (i : nat) (s : ScanRow) :
  nth_error scans i = Some s ->
  (is_terminal (sc_status s) = true ->
   nth_error (fst (check_and_fix_stuck_scans fmt_1f issues now scans)) i = Some s)
  /\ (forall s', nth_error (fst (check_and_fix_stuck_scans fmt_1f issues now scans)) i
                  = Some s' ->
       s' <> s ->
       selected s = true /\ sc_status s' = Failed /\ sc_completed_at s' = Some now).
Proof.
  intro H. unfold check_and_fix_stuck_scans. cbn [fst].
  rewrite map_map, nth_error_map, H. cbn [option_map]. unfold fix_scan.
  split.
  - intro T. unfold selected.
    destruct (sc_status s); try discriminate T; reflexivity.
  - intros s' E Hne. destruct (selected s) eqn:Sel.
    + destruct (stuck_reason fmt_1f now s) as [reason|]; cbn [fst] in E;
        injection E as <-; [|contradiction]. auto.
    + cbn [fst] in E. injection E as <-. contradiction.
Qed.

Lemma sweep_only_pending_running_witness :
  nth_error (fst (check_and_fix_stuck_scans fmt_stub no_issues retention_now
                    [finished_scan; running_scan])) 0 = Some finished_scan
  /\ nth_error (fst (check_and_fix_stuck_scans fmt_stub no_issues retention_now
                    [finished_scan; running_scan])) 1 <> Some running_scan.
Proof.
  split.
  - apply (proj1 (sweep_only_pending_running fmt_stub no_issues retention_now
                    [finished_scan; running_scan] 0 finished_scan eq_refl)).
    reflexivity.
  - vm_compute. discriminate.
Defined.

End WatchdogFacts.

Module ParserFacts.
Import Model Discovery PyStr Parser DiscoveryFacts.

Lemma map_all_some {A B} (f : A -> option B) (l : list A) (ys : list B) :
  map_all f l = Some ys <-> Forall2 (fun x y => f x = Some y) l ys.
Proof.
  revert ys. induction l as [|x l IH]; intros ys; simpl.
  - split; [injection 1 as <-; constructor|inversion 1; reflexivity].
  - split.
    + destruct (f x) as [y|] eqn:F; [|discriminate].
      destruct (map_all f l) as [ys'|] eqn:M; [|discriminate].
      injection 1 as <-. constructor; [exact F|]. apply IH. reflexivity.
    + inversion 1 as [|? y ? ys' F HF]; subst. rewrite F.
      apply IH in HF. rewrite HF. reflexivity.
Qed.

Lemma map_all_none {A B} (f : A -> option B) (l : list A) :
  map_all f l = None <-> exists x, In x l /\ f x = None.
Proof.
  induction l as [|x l IH]; simpl.
  - split; [discriminate|]. intros (y & [] & _).
  - destruct (f x) eqn:F.
    + destruct (map_all f l) eqn:M.
      * split; [discriminate|]. intros (y & [<-|Hy] & Hn); [congruence|].
        pose proof (proj2 IH (ex_intro _ y (conj Hy Hn))). congruence.
      * split; [intros _|reflexivity]. destruct (proj1 IH eq_refl) as (y & Hy & Hn).
        exists y. auto.
    + split; [intros _; exists x; auto|reflexivity].
Qed.

(** [continue] items and the kept ones, against a filter of the input. *)
Lemma somes_filter {A B} (f : A -> option (option B)) (g : A -> bool)
    (R : A -> B -> Prop) (l : list A) (os : list (option B)) :
  (forall x o, In x l -> f x = Some o -> (o = None <-> g x = false)
                                          /\ forall y, o = Some y -> R x y) ->
  Forall2 (fun x o => f x = Some o) l os ->
  Forall2 R (filter g l) (somes os).
Proof.
  intros H HF. induction HF as [|x o l os Fx HF IH]; simpl; [constructor|].
  destruct (H x o (or_introl eq_refl) Fx) as [Hn Hr].
  assert (IH' : Forall2 R (filter g l) (somes os)).
  { apply IH. intros x' o' Hin. apply H. now right. }
  destruct o as [y|]; destruct (g x) eqn:G.
  - constructor; [now apply Hr|exact IH'].
  - assert (Some y = None) by (apply Hn; reflexivity). discriminate.
  - assert (true = false) by (apply Hn; reflexivity). discriminate.
  - exact IH'.
Qed.

Lemma parse_port_spec (text : Elem -> option string) (port : Elem) (o : option PortRec) :
  parse_port text port = Some o ->
  (o = None <-> port_open port = false)
  /\ forall pr, o = Some pr -> pr_port pr = get "portid" port.
Proof.
  unfold parse_port, port_state_open, port_open.
  destruct (find_child "state" port) as [st|]; [|discriminate].
  destruct (opt_eqb (get "state" st) "open"); injection 1 as <-.
  - split; [split; discriminate|]. intros pr E. injection E as <-. reflexivity.
  - split; [tauto|]. discriminate.
Qed.

Lemma parse_ports_spec (text : Elem -> option string) (ps : list Elem)
    (os : list (option PortRec)) :
  map_all (parse_port text) ps = Some os ->
  map pr_port (somes os) = map (get "portid") (filter port_open ps).
Proof.
  intro H. apply map_all_some in H.
  assert (HF : Forall2 (fun port pr => pr_port pr = get "portid" port)
                       (filter port_open ps) (somes os)).
  { apply (somes_filter (parse_port text)); [|exact H].
    intros x o _ E. exact (parse_port_spec text x o E). }
  clear H. induction HF; simpl; congruence.
Qed.

Lemma parse_host_spec (text : Elem -> option string) (float_ok : string -> bool)
    (h : Elem) (o : option HostRec) :
  parse_host text float_ok h = Some o ->
  (o = None <-> status_up h = false)
  /\ forall p, o = Some p ->
       ph_ip p = host_ip h
       /\ map pr_port (ph_ports p) = map (get "portid") (open_ports h).
Proof.
  unfold parse_host, status_up.
  destruct (find_child "status" h) as [st|]; [|discriminate].
  destruct (opt_eqb (get "state" st) "up"); simpl.
  2: { injection 1 as <-. split; [tauto|discriminate]. }
  unfold open_ports.
  destruct (opt_int_attr _ _); [|discriminate].
  destruct (opt_int_attr _ _); [|discriminate].
  destruct (opt_int_attr _ _); [|discriminate].
  destruct (match find_child "trace" h with
            | Some t => map_all (parse_hop float_ok) (findall "hop" t)
            | None => Some [] end); [|discriminate].
  destruct (find_child "ports" h) as [ps|].
  - destruct (map_all (parse_port text) (findall "port" ps)) as [os|] eqn:M;
      [|discriminate].
    simpl. injection 1 as <-. split; [split; discriminate|].
    intros p E. injection E as <-. simpl. split; [reflexivity|].
    exact (parse_ports_spec text _ _ M).
  - simpl. injection 1 as <-. split; [split; discriminate|].
    intros p E. injection E as <-. split; reflexivity.
Qed.

Lemma has_open_port_open_ports (h : Elem) :
  has_open_port h = true <-> open_ports h <> [].
Proof.
  unfold has_open_port, open_ports.
  destruct (find_child "ports" h) as [ps|]; [|split; [discriminate|tauto]].
  rewrite existsb_exists. split.
  - intros (x & Hin & Hx) E.
    assert (In x (filter port_open (findall "port" ps))) as Hf.
    { apply filter_In. split; [exact Hin|exact Hx]. }
    rewrite E in Hf. exact Hf.
  - destruct (filter port_open (findall "port" ps)) as [|x r] eqn:F; [tauto|].
    intros _. assert (In x (filter port_open (findall "port" ps))) as Hf
      by (rewrite F; now left).
    apply filter_In in Hf. exists x. exact Hf.
Qed.

Lemma forall2_in_l {A B} (R : A -> B -> Prop) l l' x :
  Forall2 R l l' -> In x l -> exists y, In y l' /\ R x y.
Proof.
  induction 1 as [|a b l l' Hab _ IH]; simpl; [tauto|].
  intros [<-|Hx]; [exists b; auto|].
  destruct (IH Hx) as (y & Hy & Ry). exists y. auto.
Qed.

Lemma forall2_in_r {A B} (R : A -> B -> Prop) l l' y :
  Forall2 R l l' -> In y l' -> exists x, In x l /\ R x y.
Proof.
  induction 1 as [|a b l l' Hab _ IH]; simpl; [tauto|].
  intros [<-|Hy]; [exists a; auto|].
  destruct (IH Hy) as (x & Hx & Rx). exists x. auto.
Qed.

(** Parsing succeeds: one record per [host] element whose status is
    [up], in document order, with its IPv4 address and exactly its
    [open] ports. *)
Theorem parse_nmap_xml_up_hosts (text : Elem -> option string)
    (float_ok : string -> bool) (root : Elem) (ps : list HostRec) :
  parse_nmap_xml text float_ok root = Some ps ->
  Forall2 (fun h p => ph_ip p = host_ip h
                      /\ map pr_port (ph_ports p) = map (get "portid") (open_ports h))
          (filter status_up (findall "host" root)) ps.
Proof.
  unfold parse_nmap_xml.
  destruct (map_all (parse_host text float_ok) (findall "host" root)) as [os|] eqn:M;
    [|discriminate].
  simpl. injection 1 as <-. apply map_all_some in M.
  apply (somes_filter (parse_host text float_ok)); [|exact M].
  intros x o _ E. exact (parse_host_spec text float_ok x o E).
Qed.

(** Parsing raises when a [host] element has no [status] child, or
    when an [up] host has a [port] without a [state] child. *)
Theorem parse_nmap_xml_raises (text : Elem -> option string)
    (float_ok : string -> bool) (root host : Elem) :
  In host (findall "host" root) ->
  (find_child "status" host = None
   \/ (status_up host = true
       /\ exists ports port, find_child "ports" host = Some ports
            /\ In port (findall "port" ports) /\ find_child "state" port = None)) ->
  parse_nmap_xml text float_ok root = None.
Proof.
  intros Hin Hbad. unfold parse_nmap_xml.
  assert (E : map_all (parse_host text float_ok) (findall "host" root) = None).
  { apply map_all_none. exists host. split; [exact Hin|].
    destruct Hbad as [Hs|(Hup & ports & port & Hp & Hport & Hst)].
    - unfold parse_host. rewrite Hs. reflexivity.
    - unfold status_up in Hup. unfold parse_host.
      destruct (find_child "status" host) as [st|]; [|discriminate].
      rewrite Hup. simpl. rewrite Hp.
      assert (map_all (parse_port text) (findall "port" ports) = None) as Hn.
      { apply map_all_none. exists port. split; [exact Hport|].
        unfold parse_port, port_state_open. rewrite Hst. reflexivity. }
      rewrite Hn. simpl.
      destruct (opt_int_attr _ _); [|reflexivity].
      destruct (opt_int_attr _ _); [|reflexivity].
      destruct (opt_int_attr _ _); [|reflexivity].
      destruct (match find_child "trace" host with
                | Some t => map_all (parse_hop float_ok) (findall "hop" t)
                | None => Some [] end); reflexivity. }
  rewrite E. reflexivity.
Qed.

(** When the same XML file parses, [discover_hosts] and
    [parse_nmap_xml] agree on the live hosts: every discovered IP is the
    IP of a parsed host with at least one port, and every parsed host
    with a port and a non-empty IP is discovered. *)
Theorem discover_hosts_agrees_with_parse (text : Elem -> option string)
    (float_ok : string -> bool) (root : Elem) (ps : list HostRec) :
  parse_nmap_xml text float_ok root = Some ps ->
  (forall ip, In ip (discover_ips root) ->
     exists p, In p ps /\ ph_ip p = ip /\ ph_ports p <> [])
  /\ (forall p, In p ps -> ph_ports p <> [] -> ph_ip p <> Some "" ->
       In (ph_ip p) (discover_ips root)).
Proof.
  intro H. apply parse_nmap_xml_up_hosts in H. split.
  - intros ip Hip. unfold discover_ips in Hip. apply in_flat_map in Hip as (h & Hh & Hip).
    unfold host_ips in Hip.
    destruct (status_up h) eqn:U; [|contradiction].
    destruct (has_open_port h) eqn:O; [|contradiction]. simpl in Hip.
    destruct (find_ipv4 h) as [a|] eqn:A; [|contradiction].
    destruct Hip as [<-|[]].
    destruct (forall2_in_l _ _ _ h H) as (p & Hp & Eip & Eports).
    { apply filter_In. auto. }
    exists p. split; [exact Hp|]. split.
    + rewrite Eip. unfold host_ip. rewrite A. reflexivity.
    + intro E. rewrite E in Eports. simpl in Eports.
      apply has_open_port_open_ports in O. apply O.
      destruct (open_ports h); [reflexivity|discriminate].
  - intros p Hp Hports Hip.
    destruct (forall2_in_r _ _ _ p H Hp) as (h & Hh & Eip & Eports).
    apply filter_In in Hh as [Hh U].
    unfold discover_ips. apply in_flat_map. exists h. split; [exact Hh|].
    unfold host_ips. rewrite U.
    assert (O : has_open_port h = true).
    { apply has_open_port_open_ports. intro E. rewrite E in Eports.
      apply Hports. destruct (ph_ports p); [reflexivity|discriminate]. }
    rewrite O. simpl. unfold host_ip in Eip.
    destruct (find_ipv4 h) as [a|]; [|contradiction].
    rewrite Eip. now left.
Qed.

Lemma parse_nmap_xml_up_hosts_witness :
  exists ps, parse_nmap_xml Scenarios2.no_text Scenarios2.all_floats
               Scenarios.discovery_root = Some ps
  /\ Forall2 (fun h p => ph_ip p = host_ip h
                         /\ map pr_port (ph_ports p) = map (get "portid") (open_ports h))
            (filter status_up (findall "host" Scenarios.discovery_root)) ps.
Proof.
  destruct (parse_nmap_xml Scenarios2.no_text Scenarios2.all_floats
              Scenarios.discovery_root) as [ps|] eqn:E.
  - exists ps. split; [reflexivity|]. exact (parse_nmap_xml_up_hosts _ _ _ _ E).
  - vm_compute in E. discriminate E.
Defined.

Lemma parse_nmap_xml_raises_witness :
  parse_nmap_xml Scenarios2.no_text Scenarios2.all_floats Scenarios2.statusless_root
  = None.
Proof.
  apply (parse_nmap_xml_raises _ _ _
           (Node "host" [] [Node "address" [("addr", "10.0.0.7"); ("addrtype", "ipv4")] []])).
  - simpl. left. reflexivity.
  - left. reflexivity.
Defined.

Lemma discover_hosts_agrees_with_parse_witness :
  exists ps, parse_nmap_xml Scenarios2.no_text Scenarios2.all_floats
               Scenarios.discovery_root = Some ps
  /\ exists p, In p ps /\ ph_ip p = Some "10.0.0.5" /\ ph_ports p <> [].
Proof.
  destruct (parse_nmap_xml Scenarios2.no_text Scenarios2.all_floats
              Scenarios.discovery_root) as [ps|] eqn:E.
  - exists ps. split; [reflexivity|].
    apply (proj1 (discover_hosts_agrees_with_parse _ _ _ _ E)).
    vm_compute. left. reflexivity.
  - vm_compute in E. discriminate E.
Defined.

Lemma detect_flagged (h : HostRec) : ph_is_vm h = true -> detect_enhanced_vm h = Some h.
Proof. intro V. unfold detect_enhanced_vm. now rewrite V. Qed.

Lemma indicator_types_truthy (it : string * string) :
  In it vm_indicators -> truthy (snd it) = true.
Proof.
  intro Hin. repeat (destruct Hin as [<-|Hin]; [reflexivity|]). destruct Hin.
Qed.

Lemma startswith_app (s p : string) : startswith s p = true <-> exists r, s = (p ++ r)%string.
Proof.
  revert s. induction p as [|c p IH]; intro s; simpl.
  - split; [now exists s|intros _; destruct s; reflexivity].
  - destruct s as [|d s]; simpl.
    + split; [discriminate|]. intros (r & E). discriminate E.
    + rewrite andb_true_iff, IH. split.
      * intros [Ec (r & ->)]. apply Ascii.eqb_eq in Ec. subst. now exists r.
      * intros (r & E). injection E as -> ->. split; [apply Ascii.eqb_refl|now exists r].
Qed.

(** The result of [detect_enhanced_vm] on an unflagged record. *)
Lemma detect_unflagged_cases (h h' : HostRec) :
  ph_is_vm h = false -> detect_enhanced_vm h = Some h' ->
  h' = h \/ (ph_is_vm h' = true /\ h' = set_vm (ph_vm_type h') h).
Proof.
  intros V. unfold detect_enhanced_vm. rewrite V.
  destruct (find (fun iv => contains (fst iv) (lower (ph_os h))) vm_indicators)
    as [[i t]|]; simpl;
  destruct (ph_ip h) as [ip|]; try discriminate;
  destruct (startswith ip "172.17." || startswith ip "172.18."); simpl;
  destruct (startswith ip "10.0.3."); simpl; injection 1 as <-; auto.
Qed.

(** [detect_enhanced_vm] leaves a record flagged as a VM unchanged;
    otherwise it raises exactly when the IP is [None], and it changes at
    most [is_vm] (to [True]) and [vm_type]. *)
Theorem detect_enhanced_vm_effect (h h' : HostRec) :
  (ph_is_vm h = true -> detect_enhanced_vm h = Some h)
  /\ (detect_enhanced_vm h = None <-> ph_is_vm h = false /\ ph_ip h = None)
  /\ (detect_enhanced_vm h = Some h' ->
      h' = h \/ (ph_is_vm h' = true /\ h' = set_vm (ph_vm_type h') h)).
Proof.
  split; [apply detect_flagged|split].
  - unfold detect_enhanced_vm. destruct (ph_is_vm h) eqn:V.
    + split; [discriminate|intros [E _]; discriminate E].
    + destruct (find (fun iv => contains (fst iv) (lower (ph_os h))) vm_indicators)
        as [[i t]|]; simpl;
      destruct (ph_ip h) as [ip|];
        [split; [destruct (_ || _), (startswith ip "10.0.3."); discriminate|
                 intros [_ E]; discriminate E]
        |split; auto
        |split; [destruct (_ || _), (startswith ip "10.0.3."); discriminate|
                 intros [_ E]; discriminate E]
        |split; auto].
  - destruct (ph_is_vm h) eqn:V.
    + rewrite (detect_flagged h V). injection 1 as <-. now left.
    + exact (detect_unflagged_cases h h' V).
Qed.

Lemma detect_enhanced_vm_effect_witness :
  detect_enhanced_vm Scenarios2.bridge_host
    = Some (set_vm "Docker" Scenarios2.bridge_host)
  /\ detect_enhanced_vm Scenarios2.no_ip_host = None.
Proof.
  split; [reflexivity|].
  apply (proj1 (proj2 (detect_enhanced_vm_effect Scenarios2.no_ip_host
                          Scenarios2.no_ip_host))).
  split; reflexivity.
Defined.

(** Running [detect_enhanced_vm] again on its result changes nothing. *)
Theorem detect_enhanced_vm_idempotent (h h' : HostRec) :
  detect_enhanced_vm h = Some h' -> detect_enhanced_vm h' = Some h'.
Proof.
  intro E. destruct (ph_is_vm h) eqn:V.
  - rewrite (detect_flagged h V) in E. injection E as <-. exact (detect_flagged h V).
  - destruct (detect_unflagged_cases h h' V E) as [->|[V' _]]; [exact E|].
    exact (detect_flagged h' V').
Qed.

Lemma detect_enhanced_vm_idempotent_witness :
  detect_enhanced_vm (set_vm "Docker" Scenarios2.bridge_host)
    = Some (set_vm "Docker" Scenarios2.bridge_host).
Proof.
  apply (detect_enhanced_vm_idempotent Scenarios2.bridge_host).
  reflexivity.
Defined.

(** On the Docker bridge networks ([172.17.*], [172.18.*]) an unflagged
    record (with an empty [vm_type], as the parser leaves it) becomes a
    VM; its type is the first OS indicator found in the OS string, and
    ["Docker"] only when there is none. *)
Theorem detect_enhanced_vm_bridge (h : HostRec) (ip : string) :
  ph_is_vm h = false -> ph_vm_type h = "" -> ph_ip h = Some ip ->
  startswith ip "172.17." || startswith ip "172.18." = true ->
  detect_enhanced_vm h =
  Some (set_vm (match find (fun iv => contains (fst iv) (lower (ph_os h))) vm_indicators with
                | Some (_, t) => t
                | None => "Docker"
                end) h).
Proof.
  intros V T I B. unfold detect_enhanced_vm. rewrite V.
  assert (L : startswith ip "10.0.3." = false).
  { apply orb_true_iff in B.
    destruct B as [B|B]; apply startswith_app in B as (r & ->); reflexivity. }
  destruct (find (fun iv => contains (fst iv) (lower (ph_os h))) vm_indicators)
    as [[i t]|] eqn:F; simpl; rewrite I, B, L.
  - apply find_some in F as [Hin _].
    pose proof (indicator_types_truthy (i, t) Hin) as Tt. simpl in Tt. simpl.
    rewrite Tt. reflexivity.
  - simpl. rewrite T. reflexivity.
Qed.

Lemma detect_enhanced_vm_bridge_witness :
  detect_enhanced_vm Scenarios2.kvm_bridge_host
    = Some (set_vm "KVM" Scenarios2.kvm_bridge_host).
Proof.
  rewrite (detect_enhanced_vm_bridge Scenarios2.kvm_bridge_host "172.17.0.3"
             eq_refl eq_refl eq_refl eq_refl).
  reflexivity.
Defined.

End ParserFacts.

Module StrFacts.
Import Model PyStr Retention.

Lemma digit_code (n : nat) :
  (n < 10)%nat -> nat_of_ascii (ascii_of_nat (48 + n)) = (48 + n)%nat.
Proof. intro H. apply nat_ascii_embedding. lia. Qed.

Lemma digit_is_digit (n : nat) : (n < 10)%nat -> is_digit (ascii_of_nat (48 + n)) = true.
Proof.
  intro H. unfold is_digit. rewrite digit_code by exact H.
  apply andb_true_iff. split; [apply Nat.leb_le|apply Nat.ltb_lt]; lia.
Qed.

(** The digits [str_nat_aux] writes are read back by [py_digits]. *)
Lemma str_nat_aux_digits (f n : nat) (acc : string) (a : Z) (pd : bool) :
  (n < f)%nat ->
  exists m, py_digits a pd (list_ascii_of_string (str_nat_aux f n acc))
            = py_digits (a * m + Z.of_nat n)%Z true (list_ascii_of_string acc).
Proof.
  revert n acc a pd. induction f as [|f IH]; intros n acc a pd Hf; [lia|].
  assert (Hm : (n mod 10 < 10)%nat) by (apply Nat.mod_upper_bound; lia).
  assert (Hd : (Z.of_nat n = 10 * Z.of_nat (n / 10) + Z.of_nat (n mod 10))%Z).
  { rewrite (Nat.div_mod_eq n 10) at 1. lia. }
  assert (Step : forall b, py_digits b true
                   (list_ascii_of_string (String (ascii_of_nat (48 + n mod 10)) acc))
                 = py_digits (b * 10 + Z.of_nat (n mod 10))%Z true (list_ascii_of_string acc)).
  { intro b. cbn [list_ascii_of_string py_digits]. rewrite digit_is_digit by exact Hm. rewrite digit_code by exact Hm.
    replace (48 + n mod 10 - 48)%nat with (n mod 10)%nat by lia. reflexivity. }
  cbn [str_nat_aux]. destruct (Nat.ltb n 10) eqn:L.
  - apply Nat.ltb_lt in L. exists 10%Z. cbn [list_ascii_of_string py_digits].
    rewrite digit_is_digit by exact Hm. rewrite digit_code by exact Hm.
    replace (48 + n mod 10 - 48)%nat with (n mod 10)%nat by lia.
    rewrite Nat.mod_small by exact L. try reflexivity; f_equal; ring.
  - apply Nat.ltb_ge in L.
    assert (Hlt : (n / 10 < f)%nat).
    { assert (n / 10 < n)%nat by (apply Nat.div_lt; lia). lia. }
    destruct (IH (n / 10) (String (ascii_of_nat (48 + n mod 10)) acc) a pd Hlt) as [m Hm'].
    exists (m * 10)%Z. rewrite Hm', Step. f_equal. rewrite Hd. ring.
Qed.

Lemma py_digits_str_nat (n : nat) :
  py_digits 0 false (list_ascii_of_string (py_str_nat n)) = Some (Z.of_nat n).
Proof.
  unfold py_str_nat. destruct (str_nat_aux_digits (S n) n "" 0 false) as [m ->]; [lia|].
  reflexivity.
Qed.

(** [str(n)] is injective on non-negative integers. *)
Lemma py_str_nat_inj (n n' : nat) : py_str_nat n = py_str_nat n' -> n = n'.
Proof.
  intro E. pose proof (py_digits_str_nat n) as A. rewrite E, py_digits_str_nat in A.
  injection A as A. lia.
Qed.

Lemma str_nat_aux_S (f n : nat) (acc : string) :
  str_nat_aux (S f) n acc
  = if Nat.ltb n 10 then String (ascii_of_nat (48 + n mod 10)) acc
    else str_nat_aux f (n / 10) (String (ascii_of_nat (48 + n mod 10)) acc).
Proof. reflexivity. Qed.

Lemma str_nat_aux_suffix (f n : nat) (acc : string) :
  exists pre, list_ascii_of_string (str_nat_aux (S f) n acc)
              = pre ++ [ascii_of_nat (48 + n mod 10)] ++ list_ascii_of_string acc
  /\ Forall (fun c => is_digit c = true) pre.
Proof.
  revert n acc. induction f as [|f IH]; intros n acc; rewrite str_nat_aux_S.
  - destruct (Nat.ltb n 10); exists []; split; auto.
  - destruct (Nat.ltb n 10); [exists []; split; auto|].
    destruct (IH (n / 10) (String (ascii_of_nat (48 + n mod 10)) acc)) as (pre & E & F).
    rewrite E. exists (pre ++ [ascii_of_nat (48 + n / 10 mod 10)]). split.
    + simpl. rewrite <- app_assoc. reflexivity.
    + apply Forall_app. split; [exact F|]. constructor; [|constructor].
      apply digit_is_digit, Nat.mod_upper_bound. lia.
Qed.

Lemma py_str_nat_digits (n : nat) :
  exists pre, list_ascii_of_string (py_str_nat n) = pre ++ [ascii_of_nat (48 + n mod 10)]
  /\ Forall (fun c => is_digit c = true) (pre ++ [ascii_of_nat (48 + n mod 10)]).
Proof.
  unfold py_str_nat. destruct (str_nat_aux_suffix n n "") as (pre & E & F).
  rewrite E, app_nil_r. exists pre. split; [reflexivity|].
  apply Forall_app. split; [exact F|]. constructor; [|constructor].
  apply digit_is_digit, Nat.mod_upper_bound. lia.
Qed.

Lemma digit_not_space (c : ascii) : is_digit c = true -> is_space c = false.
Proof.
  unfold is_digit, is_space. intro H. apply andb_true_iff in H as [H1 H2].
  apply Nat.leb_le in H1. apply Nat.ltb_lt in H2.
  remember (nat_of_ascii c) as n eqn:En. clear En.
  do 48 (destruct n as [|n]; [lia|]).
  do 10 (destruct n as [|n]; [reflexivity|]). lia.
Qed.

Lemma digit_not_sign (c : ascii) :
  is_digit c = true -> Ascii.eqb c "-" = false /\ Ascii.eqb c "+" = false.
Proof.
  intro H. split.
  - destruct (Ascii.eqb_spec c "-") as [->|]; [discriminate H|reflexivity].
  - destruct (Ascii.eqb_spec c "+") as [->|]; [discriminate H|reflexivity].
Qed.

Lemma drop_spaces_digit (c : ascii) (l : list ascii) :
  is_digit c = true -> drop_spaces (c :: l) = c :: l.
Proof. intro H. cbn [drop_spaces]. now rewrite digit_not_space. Qed.

Lemma py_int_digits (s : string) (pre : list ascii) (c : ascii) :
  list_ascii_of_string s = pre ++ [c] -> Forall (fun c => is_digit c = true) (pre ++ [c]) ->
  py_int s = py_digits 0 false (pre ++ [c]).
Proof.
  intros E F. unfold py_int. rewrite E.
  assert (Fc : is_digit c = true).
  { apply Forall_app in F as [_ F]. inversion F. assumption. }
  assert (D1 : drop_spaces (pre ++ [c]) = pre ++ [c]).
  { destruct pre as [|c0 pre]; cbn [app].
    - now apply drop_spaces_digit.
    - inversion F as [|? ? F0]. now apply drop_spaces_digit. }
  rewrite D1, rev_unit, drop_spaces_digit by exact Fc.
  replace (rev (c :: rev pre)) with (pre ++ [c])
    by (cbn [rev]; now rewrite rev_involutive).
  destruct pre as [|c0 pre]; cbn [app].
  - destruct (digit_not_sign c Fc) as [-> ->]. reflexivity.
  - inversion F as [|? ? F0]. destruct (digit_not_sign c0 F0) as [-> ->]. reflexivity.
Qed.

(** [int(str(n)) == n] for [n >= 0]. *)
Lemma py_int_py_str_Z (d : Z) : (0 <= d)%Z -> py_int (PyStr.py_str_Z d) = Some d.
Proof.
  intro Hd. unfold PyStr.py_str_Z. replace (d <? 0)%Z with false by (symmetry; apply Z.ltb_ge; lia).
  destruct (py_str_nat_digits (Z.to_nat d)) as (pre & E & F).
  rewrite (py_int_digits _ _ _ E F), <- E, py_digits_str_nat, Z2Nat.id by exact Hd.
  reflexivity.
Qed.

End StrFacts.

Module RunnerFacts.
Import PyStr Runner StrFacts.

Lemma str_app_cancel_l (d x y : string) : (d ++ x)%string = (d ++ y)%string -> x = y.
Proof. induction d as [|c d IH]; simpl; [auto|]. intro E. injection E. exact IH. Qed.

Lemma str_app_assoc (x y z : string) : (x ++ (y ++ z))%string = ((x ++ y) ++ z)%string.
Proof. induction x as [|c x IH]; simpl; [reflexivity|now rewrite IH]. Qed.

Lemma str_app_length (x y : string) : String.length (x ++ y) = String.length x + String.length y.
Proof. induction x as [|c x IH]; simpl; [reflexivity|now rewrite IH]. Qed.

Lemma str_app_cancel_r (x y z : string) : (x ++ z)%string = (y ++ z)%string -> x = y.
Proof.
  revert y. induction x as [|c x IH]; intros [|c' y]; simpl; intro E; auto.
  - exfalso. apply (f_equal String.length) in E. simpl in E.
    rewrite str_app_length in E. lia.
  - exfalso. apply (f_equal String.length) in E. simpl in E.
    rewrite str_app_length in E. lia.
  - injection E as -> E. now rewrite (IH y E).
Qed.

(** [os.path.join(d, name)] keeps [name] apart. *)
Lemma path_join_inj (d x y : string) : path_join d x = path_join d y -> x = y.
Proof.
  unfold path_join. destruct (String.eqb d ""); [auto|].
  destruct (ends_with_slash d); intro E; apply str_app_cancel_l in E; [exact E|].
  injection E. auto.
Qed.

Lemma no_underscore_cons (c : ascii) (s : string) :
  no_underscore (String c s) = true <-> c <> "_"%char /\ no_underscore s = true.
Proof.
  unfold no_underscore. cbn [list_ascii_of_string forallb].
  rewrite andb_true_iff, negb_true_iff. split.
  - intros [H1 H2]. split; [|exact H2]. intros ->. discriminate H1.
  - intros [H1 H2]. split; [|exact H2]. now apply Ascii.eqb_neq.
Qed.

Lemma py_str_nat_no_underscore (n : nat) : no_underscore (py_str_nat n) = true.
Proof.
  destruct (py_str_nat_digits n) as (pre & E & F). unfold no_underscore. rewrite E.
  apply forallb_forall. intros c Hc. rewrite Forall_forall in F.
  specialize (F c Hc). apply negb_true_iff, Ascii.eqb_neq. intros ->. discriminate F.
Qed.

(** The first underscore splits the string. *)
Lemma split_at_underscore (n1 n2 r1 r2 : string) :
  no_underscore n1 = true -> no_underscore n2 = true ->
  (n1 ++ String "_" r1)%string = (n2 ++ String "_" r2)%string -> n1 = n2 /\ r1 = r2.
Proof.
  revert n2. induction n1 as [|c n1 IH]; intros [|c' n2] H1 H2; simpl; intro E.
  - injection E. auto.
  - injection E as E1 _. apply no_underscore_cons in H2 as [H2 _]. congruence.
  - injection E as E1 _. apply no_underscore_cons in H1 as [H1 _]. congruence.
  - apply no_underscore_cons in H1 as [_ H1]. apply no_underscore_cons in H2 as [_ H2].
    injection E as -> E. destruct (IH n2 H1 H2 E) as [-> ->]. auto.
Qed.

Lemma replace_char_inj (s s' : string) :
  no_underscore s = true -> no_underscore s' = true ->
  replace_char "." "_" s = replace_char "." "_" s' -> s = s'.
Proof.
  revert s'. induction s as [|c s IH]; intros [|c' s'] H H'; simpl; intro E;
    try discriminate E; [reflexivity|].
  apply no_underscore_cons in H as [Hc H]. apply no_underscore_cons in H' as [Hc' H'].
  injection E as Ec E. rewrite (IH s' H H' E). f_equal.
  destruct (Ascii.eqb_spec c "."), (Ascii.eqb_spec c' "."); congruence.
Qed.

(** [run_host_scan] writes each (scan, host) pair to its own file, and
    never to the [discover_hosts] file of a scan unless the address is
    the text ["discovery"]: [scan_{id}_{ip with '.' -> '_'}.xml] and
    [scan_{id}_discovery.xml] under the same output directory, for
    addresses without an underscore. *)
Theorem host_xml_paths_distinct (d : string) (a b : nat) (ip ip' : string) :
  no_underscore ip = true -> no_underscore ip' = true ->
  (host_xml d a ip = host_xml d b ip' -> a = b /\ ip = ip')
  /\ (host_xml d a ip = discovery_xml d b -> a = b /\ ip = "discovery").
Proof.
  intros H H'. unfold host_xml, discovery_xml. split; intro E;
    apply path_join_inj in E; simpl in E; injection E as E;
    destruct (split_at_underscore _ _ _ _ (py_str_nat_no_underscore a)
                (py_str_nat_no_underscore b) E) as [En Er];
    apply py_str_nat_inj in En; split; try exact En.
  - apply str_app_cancel_r in Er. exact (replace_char_inj ip ip' H H' Er).
  - change "discovery.xml"%string with ("discovery" ++ ".xml")%string in Er.
    apply str_app_cancel_r in Er.
    change "discovery"%string with (replace_char "." "_" "discovery") in Er.
    exact (replace_char_inj ip "discovery" H eq_refl Er).
Qed.

Lemma host_xml_paths_distinct_witness :
  host_xml "/tmp" 1 "10.0.0.5" <> host_xml "/tmp" 12 "10.0.0.5".
Proof.
  intro E.
  destruct (proj1 (host_xml_paths_distinct "/tmp" 1 12 "10.0.0.5" "10.0.0.5"
                     eq_refl eq_refl) E) as [N _].
  discriminate N.
Defined.

End RunnerFacts.

Module ProcsFacts.
Import PyStr Runner Procs StrFacts RunnerFacts ParserFacts.

Lemma contains_app (needle pre hay : string) :
  startswith hay needle = true -> contains needle (pre ++ hay) = true.
Proof.
  intro H. induction pre as [|c pre IH]; simpl.
  - destruct hay; simpl in *; rewrite H; reflexivity.
  - rewrite IH. apply orb_true_r.
Qed.

Lemma path_join_suffix (d name : string) : exists pre, path_join d name = (pre ++ name)%string.
Proof.
  unfold path_join. destruct (String.eqb d ""); [now exists ""|].
  destruct (ends_with_slash d); [now exists d|].
  exists (d ++ "/")%string. now rewrite <- str_app_assoc.
Qed.

(** The tag of scan [a] occurs in the output path of scan [b] whenever
    [str(a)] is a prefix of [str(b)]. *)
Lemma tag_in_xml (a b : nat) (d rest : string) :
  startswith (py_str_nat b) (py_str_nat a) = true ->
  contains (scan_tag a) (path_join d ("scan_" ++ py_str_nat b ++ rest)) = true.
Proof.
  intro P. destruct (path_join_suffix d ("scan_" ++ py_str_nat b ++ rest)) as [pre ->].
  apply contains_app. apply startswith_app in P as (r & E). apply startswith_app.
  exists (r ++ rest)%string. unfold scan_tag. rewrite E, <- !str_app_assoc. reflexivity.
Qed.

Lemma find_nmap_processes_in (runtime_seconds : Z -> Z) (a : nat) (procs : list ProcInfo)
    (p : ProcInfo) :
  In p procs -> Forall (fun q => pi_create_time q <> None) procs ->
  proc_matches a p = true ->
  In (pi_pid p) (map np_pid (find_nmap_processes runtime_seconds a procs)).
Proof.
  induction procs as [|q procs IH]; simpl; [tauto|]. intros Hin F M.
  inversion F as [|? ? Fq F']; subst.
  destruct Hin as [->|Hin].
  - rewrite M. destruct (pi_create_time p); [|congruence]. simpl. now left.
  - destruct (proc_matches a q); [destruct (pi_create_time q); [|congruence]|];
      simpl; auto.
Qed.

(** [kill_nmap_processes(a)] (called on every stuck scan [a]) signals
    the nmap process of another scan [b] whenever the decimal [str(a)]
    is a prefix of [str(b)] (scan 1 and scan 12, say): the test
    [f"scan_{a}" in arg] matches [b]'s output path. *)
Theorem kill_nmap_processes_prefix (runtime_seconds : Z -> Z) (terminate_ok : nat -> bool)
    (a b : nat) (d range ip : string) (procs : list ProcInfo) (p : ProcInfo) :
  startswith (py_str_nat b) (py_str_nat a) = true ->
  In p procs -> Forall (fun q => pi_create_time q <> None) procs ->
  pi_name p = Some "nmap" ->
  pi_cmdline p = Some (discovery_cmd d range b) \/ pi_cmdline p = Some (host_cmd d ip b) ->
  In (pi_pid p) (fst (kill_nmap_processes runtime_seconds terminate_ok a procs)).
Proof.
  intros P Hin F N C. unfold kill_nmap_processes. cbn [fst].
  apply (find_nmap_processes_in _ _ _ _ Hin F).
  unfold proc_matches. rewrite N, String.eqb_refl. cbn [andb].
  destruct C as [C|C]; rewrite C; apply existsb_exists.
  - exists (discovery_xml d b). split; [simpl; tauto|].
    unfold discovery_xml. now apply tag_in_xml.
  - exists (host_xml d b ip). split; [simpl; tauto|].
    unfold host_xml. now apply tag_in_xml.
Qed.

Lemma kill_nmap_processes_prefix_witness :
  In 4242 (fst (kill_nmap_processes Scenarios2.runtime_stub Scenarios2.terminate_all 1
                  [Scenarios2.nmap_12])).
Proof.
  apply (kill_nmap_processes_prefix Scenarios2.runtime_stub Scenarios2.terminate_all 1 12
           "/tmp" "" "10.0.0.5" [Scenarios2.nmap_12] Scenarios2.nmap_12).
  - reflexivity.
  - left. reflexivity.
  - constructor; [discriminate|constructor].
  - reflexivity.
  - right. reflexivity.
Defined.

(** [_find_nmap_processes] returns the matching processes in table
    order while every matching [create_time] is known; the first
    matching process without one ends the search, and the processes
    after it are not reported (nor killed). *)
Theorem find_nmap_processes_spec (runtime_seconds : Z -> Z) (a : nat)
    (procs pre post : list ProcInfo) (p : ProcInfo) :
  (Forall (fun q => proc_matches a q = true -> pi_create_time q <> None) procs ->
   map np_pid (find_nmap_processes runtime_seconds a procs)
   = map pi_pid (filter (proc_matches a) procs))
  /\ (proc_matches a p = true -> pi_create_time p = None ->
      find_nmap_processes runtime_seconds a (pre ++ p :: post)
      = find_nmap_processes runtime_seconds a pre).
Proof.
  split.
  - induction procs as [|q procs IH]; simpl; intro F; [reflexivity|].
    inversion F as [|? ? Fq F']; subst.
    destruct (proc_matches a q) eqn:M; [|exact (IH F')].
    destruct (pi_create_time q); [|exfalso; now apply Fq]. simpl. now rewrite IH.
  - intros M T. induction pre as [|q pre IH]; simpl.
    + now rewrite M, T.
    + rewrite IH. reflexivity.
Qed.

Lemma find_nmap_processes_spec_witness :
  map np_pid (find_nmap_processes Scenarios2.runtime_stub 1
                [Scenarios2.nmap_1; Scenarios2.unreadable_nmap_1; Scenarios2.nmap_12])
  = [4101].
Proof.
  change [Scenarios2.nmap_1; Scenarios2.unreadable_nmap_1; Scenarios2.nmap_12]
    with ([Scenarios2.nmap_1] ++ Scenarios2.unreadable_nmap_1 :: [Scenarios2.nmap_12]).
  rewrite (proj2 (find_nmap_processes_spec Scenarios2.runtime_stub 1 []
                    [Scenarios2.nmap_1] [Scenarios2.nmap_12] Scenarios2.unreadable_nmap_1)
             eq_refl eq_refl).
  reflexivity.
Defined.

End ProcsFacts.

Module SettingsFacts.
Import Retention Settings StrFacts.
Local Open Scope Z_scope.

Lemma lookup_set_setting (k key v : string) (kvs : list (string * string)) :
  setting_lookup k (set_setting key v kvs)
  = if String.eqb k key then Some v else setting_lookup k kvs.
Proof.
  induction kvs as [|[k0 v0] r IH]; simpl.
  - rewrite String.eqb_sym. destruct (String.eqb k key); reflexivity.
  - destruct (String.eqb_spec k0 key) as [->|N]; simpl.
    + destruct (String.eqb_spec key k) as [->|N']; [now rewrite String.eqb_refl|].
      destruct (String.eqb_spec k key); [congruence|reflexivity].
    + rewrite IH. destruct (String.eqb_spec k0 k) as [->|N'];
        destruct (String.eqb_spec k key); congruence.
Qed.

Lemma settings_valid_iff (sp dr : Z) :
  settings_valid sp dr = true <-> 1 <= sp <= 32 /\ 1 <= dr <= 365.
Proof. unfold settings_valid. rewrite !andb_true_iff, !Z.leb_le. tauto. Qed.

(** An accepted [PUT /api/settings] is read back by [GET /api/settings]
    and by the retention job, sets the in-memory parallelism, and leaves
    every other setting alone. *)
Theorem update_settings_roundtrip (sp dr : Z) (kvs kvs' : list (string * string))
    (mem : Z) (resp : Z * Z) (scans : list Model.ScanRow) (arts : list ArtifactRow)
    (disk : list string) :
  update_settings sp dr kvs = Some (kvs', mem, resp) ->
  get_settings kvs' = Some (sp, dr)
  /\ retention_days (mkRStore scans arts kvs' disk) = Some dr
  /\ mem = sp /\ resp = (sp, dr)
  /\ (forall k, k <> "scan_parallelism" -> k <> "data_retention_days" ->
      setting_lookup k kvs' = setting_lookup k kvs).
Proof.
  unfold update_settings. destruct (settings_valid sp dr) eqn:V; [|discriminate].
  pose proof (proj1 (settings_valid_iff sp dr) V) as B.
  injection 1 as <- <- <-.
  assert (Ne : String.eqb "scan_parallelism" "data_retention_days" = false) by reflexivity.
  assert (Ne' : String.eqb "data_retention_days" "scan_parallelism" = false) by reflexivity.
  split; [|split; [|split; [reflexivity|split; [reflexivity|]]]].
  - unfold get_settings, get_setting.
    rewrite !lookup_set_setting, Ne, Ne', !String.eqb_refl.
    rewrite !py_int_py_str_Z by lia. rewrite V. reflexivity.
  - unfold retention_days. cbn [r_settings].
    rewrite lookup_set_setting, String.eqb_refl, py_int_py_str_Z by lia. reflexivity.
  - intros k N1 N2. rewrite !lookup_set_setting.
    destruct (String.eqb_spec k "data_retention_days"); [congruence|].
    destruct (String.eqb_spec k "scan_parallelism"); [congruence|]. reflexivity.
Qed.

Lemma update_settings_roundtrip_witness :
  exists kvs', update_settings 4 30 [] = Some (kvs', 4, (4, 30))
               /\ get_settings kvs' = Some (4, 30).
Proof.
  destruct (update_settings 4 30 []) as [[[kvs' mem] resp]|] eqn:E.
  - exists kvs'. pose proof (update_settings_roundtrip 4 30 [] kvs' mem resp [] [] [] E)
      as (G & _ & -> & -> & _).
    split; [reflexivity|exact G].
  - discriminate E.
Defined.

End SettingsFacts.

Module JobsFacts.
Import PyStr Scheduler Jobs StrFacts RunnerFacts.

Lemma in_remove_job (j : Job) (jid : string) (jobs : list Job) :
  In j (remove_job jid jobs) <-> In j jobs /\ job_id j <> jid.
Proof.
  unfold remove_job. rewrite filter_In, negb_true_iff, String.eqb_neq. reflexivity.
Qed.

Lemma add_job_eq (croniter_ok : string -> bool) (trigger_ok : list string -> bool)
    (s : ScheduleRow) (jobs : list Job) :
  add_job croniter_ok trigger_ok s jobs
  = (remove_job (job_id_of (sch_id s)) jobs
     ++ (if cron_accepted croniter_ok trigger_ok s then [job_of s] else []),
     cron_accepted croniter_ok trigger_ok s).
Proof.
  unfold add_job, cron_accepted. destruct (croniter_ok _); cbn [andb];
    [destruct (_ && _)|]; now rewrite ?app_nil_r.
Qed.

Lemma job_id_of_inj (a b : nat) : job_id_of a = job_id_of b -> a = b.
Proof. unfold job_id_of. intro E. apply str_app_cancel_l in E. exact (py_str_nat_inj a b E). Qed.

Lemma find_schedule_id (id : nat) (st : SStore) (s : ScheduleRow) :
  find_schedule id st = Some s -> sch_id s = id /\ In s (s_schedules st).
Proof.
  unfold find_schedule. intro F. pose proof (find_some _ _ F) as [Hin E].
  apply Nat.eqb_eq in E. auto.
Qed.

(** After [update_schedule(id)] the scheduler holds the other jobs it
    held, and a [schedule_{id}] job exactly when the schedule exists, is
    enabled and its cron expression is accepted; an edit to a rejected
    expression thus drops the schedule's old job. *)
Theorem update_schedule_jobs (croniter_ok : string -> bool)
    (trigger_ok : list string -> bool) (cron_next : string -> Z -> option Z)
    (id : nat) (now : Z) (st : SStore) (jobs : list Job) (j : Job) :
  In j (snd (update_schedule croniter_ok trigger_ok cron_next id now st jobs))
  <-> (In j jobs /\ job_id j <> job_id_of id)
      \/ (exists s, find_schedule id st = Some s /\ sch_enabled s = true
                    /\ cron_accepted croniter_ok trigger_ok s = true /\ j = job_of s).
Proof.
  unfold update_schedule, add_schedule, remove_schedule.
  destruct (find_schedule id st) as [s|] eqn:F.
  - destruct (find_schedule_id id st s F) as [Eid _].
    destruct (sch_enabled s) eqn:En; cbn [negb].
    + rewrite add_job_eq, Eid.
      destruct (cron_accepted croniter_ok trigger_ok s) eqn:A; cbn [snd];
        rewrite in_app_iff, !in_remove_job; cbn [In].
      * split.
        -- intros [[[H1 H2] _]|[<-|[]]]; [left; tauto|right; now exists s].
        -- intros [[H1 H2]|(s' & E & _ & _ & ->)]; [left; tauto|].
           injection E as ->. right. now left.
      * split.
        -- intros [[[H1 H2] _]|[]]. left. tauto.
        -- intros [[H1 H2]|(s' & E & _ & A' & _)]; [left; tauto|].
           injection E as ->. congruence.
    + cbn [snd]. rewrite in_remove_job. split; [now left|].
      intros [H|(s' & E & En' & _)]; [exact H|]. injection E as ->. congruence.
  - cbn [snd]. rewrite in_remove_job. split; [now left|].
    intros [H|(s' & E & _)]; [exact H|]. discriminate E.
Qed.

(** Enabled schedules keep distinct ids. *)
Lemma enabled_ids_nodup (ss : list ScheduleRow) :
  NoDup (map sch_id ss) -> NoDup (map sch_id (filter sch_enabled ss)).
Proof.
  intro H. induction ss as [|s ss IH]; [exact H|].
  cbn [map filter] in *. inversion H as [|? ? Hn H']; subst.
  destruct (sch_enabled s); [|exact (IH H')].
  cbn [map]. constructor; [|exact (IH H')].
  rewrite in_map_iff. intros (s' & E & Hs'). apply Hn.
  rewrite <- E. apply in_map. apply filter_In in Hs'. tauto.
Qed.

Lemma load_each_jobs (croniter_ok : string -> bool) (trigger_ok : list string -> bool)
    (cron_next : string -> Z -> option Z) (now : Z) (ss : list ScheduleRow) :
  forall rows jobs, NoDup (map sch_id ss) -> forall j,
  In j (snd (load_each croniter_ok trigger_ok cron_next now ss rows jobs))
  <-> (In j jobs /\ forall s, In s ss -> job_id j <> job_id_of (sch_id s))
      \/ (exists s, In s ss /\ cron_accepted croniter_ok trigger_ok s = true
                    /\ j = job_of s).
Proof.
  induction ss as [|s ss IH]; intros rows jobs Hnd j; cbn [load_each].
  - cbn [snd In]. split; [intro H; left; split; tauto|].
    intros [[H _]|(s & [] & _)]. exact H.
  - rewrite add_job_eq. inversion Hnd as [|? ? Hn Hnd']; subst.
    rewrite IH by exact Hnd'. rewrite in_app_iff, in_remove_job. cbn [In].
    split.
    + intros [[[[H1 H2]|Hj] H3]|(s' & Hs' & A & ->)].
      * left. split; [exact H1|]. intros s' [<-|Hs']; auto.
      * right. exists s. split; [now left|].
        destruct (cron_accepted croniter_ok trigger_ok s); cbn [In] in Hj;
          [|destruct Hj]. destruct Hj as [<-|[]]. auto.
      * right. exists s'. split; [now right|auto].
    + intros [[H1 H2]|(s' & [<-|Hs'] & A & ->)].
      * left. split; [left; split; [exact H1|apply H2; now left]|].
        intros s' Hs'. apply H2. now right.
      * left. split.
        -- right. rewrite A. now left.
        -- intros s' Hs' E. apply Hn. apply job_id_of_inj in E. rewrite E.
           now apply in_map.
      * right. exists s'. auto.
Qed.

(** [load_schedules] keeps every job not named after an enabled
    schedule (the cleanup and monitor jobs among them) and adds one job
    for each enabled schedule whose cron expression is accepted, and no
    other (schedule ids being a primary key). *)
Theorem load_schedules_jobs (croniter_ok : string -> bool)
    (trigger_ok : list string -> bool) (cron_next : string -> Z -> option Z)
    (now : Z) (st : SStore) (jobs : list Job) (j : Job) :
  NoDup (map sch_id (s_schedules st)) ->
  In j (snd (load_schedules croniter_ok trigger_ok cron_next now st jobs))
  <-> (In j jobs /\ forall s, In s (s_schedules st) -> sch_enabled s = true ->
                         job_id j <> job_id_of (sch_id s))
      \/ (exists s, In s (s_schedules st) /\ sch_enabled s = true
                    /\ cron_accepted croniter_ok trigger_ok s = true /\ j = job_of s).
Proof.
  intro Hnd. unfold load_schedules.
  pose proof (load_each_jobs croniter_ok trigger_ok cron_next now
                (filter sch_enabled (s_schedules st)) (s_schedules st) jobs
                (enabled_ids_nodup _ Hnd) j) as L.
  destruct (load_each _ _ _ _ _ _ _) as [rows jobs']. cbn [snd] in *. rewrite L.
  split.
  - intros [[H1 H2]|(s & Hs & A & ->)].
    + left. split; [exact H1|]. intros s Hs En. apply H2, filter_In. auto.
    + apply filter_In in Hs as [Hs En]. right. exists s. auto.
  - intros [[H1 H2]|(s & Hs & En & A & ->)].
    + left. split; [exact H1|]. intros s Hs. apply filter_In in Hs as [Hs En]. auto.
    + right. exists s. split; [apply filter_In; auto|auto].
Qed.

Lemma load_schedules_jobs_witness :
  In (job_of (Scenarios.nightly true))
     (snd (load_schedules Scenarios2.croniter_all Scenarios2.trigger_all
             Scenarios.daily_cron Scenarios.retention_now (Scenarios.schedule_store true) [])).
Proof.
  apply (load_schedules_jobs Scenarios2.croniter_all Scenarios2.trigger_all
           Scenarios.daily_cron Scenarios.retention_now (Scenarios.schedule_store true) []
           (job_of (Scenarios.nightly true))).
  - constructor; [intros []|constructor].
  - right. exists (Scenarios.nightly true). split; [now left|].
    split; [reflexivity|split; [vm_compute; reflexivity|reflexivity]].
Defined.

End JobsFacts.

Module SweepFacts.
Import Model Watchdog.

Lemma fix_scan_twice (fmt_1f : Z -> Z -> string) (issues : ScanRow -> list string)
    (now : Z) (s : ScanRow) :
  fix_scan fmt_1f issues now (fst (fix_scan fmt_1f issues now s))
  = (fst (fix_scan fmt_1f issues now s), false).
Proof.
  unfold fix_scan. destruct (selected s) eqn:Sel.
  - destruct (stuck_reason fmt_1f now s) eqn:R; cbn [fst].
    + reflexivity.
    + now rewrite Sel, R.
  - cbn [fst]. now rewrite Sel.
Qed.

(** A second sweep at the same instant changes nothing and reports no
    fixed scan. *)
Theorem check_and_fix_stuck_scans_idempotent (fmt_1f : Z -> Z -> string)
    (issues : ScanRow -> list string) (now : Z) (scans : list ScanRow) :
  check_and_fix_stuck_scans fmt_1f issues now
    (fst (check_and_fix_stuck_scans fmt_1f issues now scans))
  = (fst (check_and_fix_stuck_scans fmt_1f issues now scans), 0).
Proof.
  unfold check_and_fix_stuck_scans. cbn [fst].
  induction scans as [|s scans IH]; [reflexivity|].
  cbn [map filter]. rewrite fix_scan_twice. cbn [snd fst].
  injection IH as IH1 IH2. now rewrite IH1, IH2.
Qed.

End SweepFacts.

Module CleanupFacts.
Import Model Retention RetentionFacts.
Local Open Scope Z_scope.

Lemma filter_none {A} (p : A -> bool) (l : list A) :
  (forall x, In x l -> p x = false) -> filter p l = [].
Proof.
  induction l as [|x l IH]; simpl; intro H; [reflexivity|].
  rewrite H by now left. apply IH. intros y Hy. apply H. now right.
Qed.

(** Running the retention job twice at the same instant deletes nothing
    the second time: no scan left is older than the cutoff. *)
Theorem cleanup_old_data_idempotent (now : Z) (st : RStore) :
  cleanup_old_data now (snd (cleanup_old_data now st))
  = ([], snd (cleanup_old_data now st)).
Proof.
  destruct (retention_days st) as [d|] eqn:Hd.
  - destruct (cutoff_of now d) as [c|] eqn:Hc.
    + rewrite (cleanup_old_data_eq now st d c Hd Hc). cbn [snd].
      unfold cleanup_old_data at 1. unfold retention_days at 1. cbn [r_settings r_scans].
      unfold retention_days in Hd. rewrite Hd, Hc.
      rewrite filter_none; [reflexivity|].
      intros s Hs. apply filter_In in Hs as [Hs N].
      destruct (older_than c s) eqn:O; [|reflexivity]. exfalso.
      rewrite negb_true_iff in N.
      assert (in_ids (map sc_id (filter (older_than c) (r_scans st))) (sc_id s) = true).
      { apply in_ids_iff, in_map, filter_In. auto. }
      congruence.
    + assert (E : cleanup_old_data now st = ([], st))
        by (unfold cleanup_old_data; now rewrite Hd, Hc).
      rewrite E. exact E.
  - assert (E : cleanup_old_data now st = ([], st))
      by (unfold cleanup_old_data; now rewrite Hd).
    rewrite E. exact E.
Qed.

End CleanupFacts.
